(** * Chronos FFI: wall-clock time bindings over the POSIX time functions

    A shallow embedding of [ffi/chronos_ffi.c].  The five exported functions
    ([chronos_now], [chronos_to_utc], [chronos_to_local], [chronos_from_utc],
    [chronos_get_timezone_offset]) are translated line by line; C integers are
    [Z] with their wrap-around written out, the Lean [IO] result is a two
    constructor type, and the process environment (clock and time zone) is an
    explicit [world] value.  The C library routines the file calls
    ([gmtime_r], [localtime_r], [timegm], [mktime]) are not part of the
    repository and are modelled in [Module Libc]. *)

From Stdlib Require Import ZArith Lia String List Bool.
Import ListNotations.
Local Open Scope Z_scope.

(** ** Fixed-width C integers *)

Module CInt.

Definition wrap_unsigned (w x : Z) : Z := x mod 2 ^ w.

Definition wrap_signed (w x : Z) : Z :=
  (x + 2 ^ (w - 1)) mod 2 ^ w - 2 ^ (w - 1).

Definition to_uint8 : Z -> Z := wrap_unsigned 8.
Definition to_uint32 : Z -> Z := wrap_unsigned 32.
Definition to_int32 : Z -> Z := wrap_signed 32.
Definition to_int64 : Z -> Z := wrap_signed 64.

Definition INT_MIN : Z := - 2 ^ 31.
Definition INT_MAX : Z := 2 ^ 31 - 1.
Definition INT64_MIN : Z := - 2 ^ 63.
Definition INT64_MAX : Z := 2 ^ 63 - 1.

Definition in_int (x : Z) : bool := (INT_MIN <=? x) && (x <=? INT_MAX).
Definition in_int64 (x : Z) : bool := (INT64_MIN <=? x) && (x <=? INT64_MAX).

(** [int] arithmetic as the usual two's-complement targets perform it. *)
Definition int_add (a b : Z) : Z := to_int32 (a + b).
Definition int_sub (a b : Z) : Z := to_int32 (a - b).

(** [time_t] is a signed 64-bit integer on the supported platforms. *)
Definition time_sub (a b : Z) : Z := to_int64 (a - b).

End CInt.

Import CInt.

(** ** The Lean runtime's result and pair objects *)

Inductive io_result (A : Type) : Type :=
| io_ok (a : A)
| io_error (msg : string).

Arguments io_ok {A} a.
Arguments io_error {A} msg.

Definition lean_io_result_mk_ok {A : Type} (a : A) : io_result A := io_ok a.

(** [mk_io_error]: an [IO] user error that carries the message. *)
Definition mk_io_error {A : Type} (msg : string) : io_result A := io_error msg.

(** [mk_pair]: a constructor object with two fields. *)
Definition mk_pair {A B : Type} (fst : A) (snd : B) : A * B := (fst, snd).

(** ** The C library's calendar routines *)

Module Libc.

(** The fields of [struct tm] the bindings read or write; each is a C [int]. *)
Record tm : Type := mk_tm {
  tm_sec : Z;
  tm_min : Z;
  tm_hour : Z;
  tm_mday : Z;
  tm_mon : Z;
  tm_year : Z;
  tm_isdst : Z
}.

(** Modelled from the spec: the Gregorian leap-year rule of section 4.2
    (divisible by 4, and not by 100 unless also by 400); the C library that
    applies it is not part of the repository. *)
Definition is_leap (y : Z) : bool :=
  (y mod 4 =? 0) && (negb (y mod 100 =? 0) || (y mod 400 =? 0)).

Definition days_in_year (y : Z) : Z := if is_leap y then 366 else 365.

(** Number of leap years among the years 1 .. y-1 of the proleptic calendar. *)
Definition leaps_before (y : Z) : Z :=
  (y - 1) / 4 - (y - 1) / 100 + (y - 1) / 400.

(** Days from 1970-01-01 to January 1st of year [y]. *)
Definition days_before_year (y : Z) : Z :=
  365 * (y - 1970) + (leaps_before y - leaps_before 1970).

Definition month_lengths (leap : bool) : list Z :=
  [31; if leap then 29 else 28; 31; 30; 31; 30; 31; 31; 30; 31; 30; 31].

(** Length of month [m] (1 .. 12) of year [y]. *)
Definition days_in_month (y m : Z) : Z :=
  nth (Z.to_nat (m - 1)) (month_lengths (is_leap y)) 0.

(** Days from January 1st of a year to the first of month [m] (1 .. 12). *)
Definition days_before_month (leap : bool) (m : Z) : Z :=
  fold_right Z.add 0 (firstn (Z.to_nat (m - 1)) (month_lengths leap)).

(** Modelled from the spec: "computes the day count since the epoch from
    (year, month, day) using the same Gregorian rule"; the day of the month
    enters linearly, which is what carries an out-of-range day over. *)
Definition days_from_civil (y m d : Z) : Z :=
  days_before_year y + days_before_month (is_leap y) m + (d - 1).

(** Modelled from the spec: "applies the proleptic Gregorian calendar
    algorithm" to a day count, in 64-bit-safe closed form over 400-year
    eras that start on March 1st. *)
Definition civil_from_days (z : Z) : Z * Z * Z :=
  let z := z + 719468 in
  let era := z / 146097 in
  let doe := z mod 146097 in
  let yoe := (doe - doe / 1460 + doe / 36524 - doe / 146096) / 365 in
  let y := yoe + era * 400 in
  let doy := doe - (365 * yoe + yoe / 4 - yoe / 100) in
  let mp := (5 * doy + 2) / 153 in
  let d := doy - (153 * mp + 2) / 5 + 1 in
  let m := if mp <? 10 then mp + 3 else mp - 9 in
  (if m <=? 2 then y + 1 else y, m, d).

(** Broken-down fields of the second count [t], shared by [gmtime_r] and
    [localtime_r]; [None] is the C library's [EOVERFLOW]: the year does not
    fit the [int] field [tm_year]. *)
Definition secs_to_tm (t isdst : Z) : option tm :=
  let days := t / 86400 in
  let rem := t mod 86400 in
  let '(y, m, d) := civil_from_days days in
  if in_int (y - 1900) then
    Some {| tm_sec := rem mod 60;
            tm_min := (rem / 60) mod 60;
            tm_hour := rem / 3600;
            tm_mday := d;
            tm_mon := m - 1;
            tm_year := y - 1900;
            tm_isdst := isdst |}
  else None.

(** Second count of broken-down fields read as UTC.  Months outside 0 .. 11
    carry into the year; days, hours, minutes and seconds enter linearly. *)
Definition tm_to_secs (b : tm) : Z :=
  let y := tm_year b + 1900 + tm_mon b / 12 in
  let m := tm_mon b mod 12 + 1 in
  (days_from_civil y m 1 + (tm_mday b - 1)) * 86400
  + tm_hour b * 3600 + tm_min b * 60 + tm_sec b.

(** Modelled from the spec: the UTC decomposition of section 4.2, which
    the source obtains from the C library's [gmtime_r(&t, &result)]; the
    library is not part of the repository.  [None] stands for the [NULL]
    return the source checks for, which POSIX gives when the year cannot be
    stored in [tm_year]. *)
Definition gmtime_r (t : Z) : option tm := secs_to_tm t 0.

(** Modelled from the spec: the inverse of section 4.2, which the source
    obtains from the C library's [timegm(&tm)]; the library is not part of
    the repository.  Fields outside their nominal ranges are carried over,
    and the value -1 reports a failure: the second count does not fit
    [time_t], or the carried-over date has a year that does not fit
    [tm_year], into which the library writes the fields back. *)
Definition timegm (b : tm) : Z :=
  let r := tm_to_secs b in
  if in_int64 r then
    match secs_to_tm r 0 with
    | Some _ => r
    | None => -1
    end
  else -1.

(** The host's time zone in the shape of a POSIX [TZ] rule: one standard
    offset, one daylight-saving offset, and the instants at which daylight
    saving is in effect.  A zone without daylight saving has it never in
    effect.  Zones whose standard offset itself changes over the years, as
    some entries of the zone database do, are not of this shape. *)
Record zone : Type := mk_zone {
  utc_off_std : Z;
  utc_off_dst : Z;
  dst_active : Z -> bool
}.

Definition zone_offset (z : zone) (t : Z) : Z :=
  if dst_active z t then utc_off_dst z else utc_off_std z.

(** Modelled from the spec: "the platform's local-time resolution" of
    section 4.2, which the source obtains from the C library's
    [localtime_r(&t, &result)]; the library and the zone database are not
    part of the repository.  It sets [tm_isdst] to the state in effect. *)
Definition localtime_r (z : zone) (t : Z) : option tm :=
  secs_to_tm (t + zone_offset z t) (if dst_active z t then 1 else 0).

(** Modelled from the spec: the inverse of the platform's local-time
    resolution, which the source obtains from the C library's
    [mktime(&tm)]; the library is not part of the repository.  As POSIX
    words it, the fields are read as local time and [tm_isdst] tells which
    of the two offsets they are in (positive: daylight saving, zero:
    standard, negative: to be found out).  The value -1 reports a failure,
    as for [timegm]. *)
Definition mktime (z : zone) (b : tm) : Z :=
  let wall := tm_to_secs b in
  let t :=
    if 0 <? tm_isdst b then wall - utc_off_dst z
    else if tm_isdst b =? 0 then wall - utc_off_std z
    else if dst_active z (wall - utc_off_dst z) then wall - utc_off_dst z
    else wall - utc_off_std z in
  if in_int64 t then
    match localtime_r z t with
    | Some _ => t
    | None => -1
    end
  else -1.

End Libc.

Import Libc.

(** ** The process environment behind the [world] token *)

Record world : Type := mk_world {
  (** [clock_gettime(CLOCK_REALTIME, &ts)]: [tv_sec] and [tv_nsec], or a
      non-zero return. *)
  clock_realtime : option (Z * Z);
  (** [time(NULL)]. *)
  time_now : Z;
  (** The configured local time zone. *)
  local_zone : zone
}.

(** ** The bindings *)

(** (year : Int32, month : UInt8, day : UInt8, hour : UInt8, minute : UInt8,
    second : UInt8, nanosecond : UInt32) as nested pairs. *)
Definition DateTimeTuple : Type := (Z * (Z * (Z * (Z * (Z * (Z * Z))))))%type.

Definition mk_datetime_tuple (year month day hour minute second nanosecond : Z)
  : DateTimeTuple :=
  let p6 := mk_pair second nanosecond in
  let p5 := mk_pair minute p6 in
  let p4 := mk_pair hour p5 in
  let p3 := mk_pair day p4 in
  let p2 := mk_pair month p3 in
  let p1 := mk_pair year p2 in
  p1.

Definition chronos_now (w : world) : io_result (Z * Z) :=
  match clock_realtime w with
  | None => mk_io_error "clock_gettime failed"
  | Some (tv_sec, tv_nsec) =>
      let seconds := tv_sec in
      let nanos := to_uint32 tv_nsec in
      lean_io_result_mk_ok (mk_pair seconds nanos)
  end.

Definition chronos_to_utc (seconds nanos : Z) (w : world)
  : io_result DateTimeTuple :=
  let t := to_int64 seconds in
  match gmtime_r t with
  | None => mk_io_error "gmtime_r failed"
  | Some tm_result =>
      let tuple := mk_datetime_tuple
        (to_int32 (int_add (tm_year tm_result) 1900))
        (to_uint8 (int_add (tm_mon tm_result) 1))
        (to_uint8 (tm_mday tm_result))
        (to_uint8 (tm_hour tm_result))
        (to_uint8 (tm_min tm_result))
        (to_uint8 (tm_sec tm_result))
        nanos in
      lean_io_result_mk_ok tuple
  end.

Definition chronos_to_local (seconds nanos : Z) (w : world)
  : io_result DateTimeTuple :=
  let t := to_int64 seconds in
  match localtime_r (local_zone w) t with
  | None => mk_io_error "localtime_r failed"
  | Some tm_result =>
      let tuple := mk_datetime_tuple
        (to_int32 (int_add (tm_year tm_result) 1900))
        (to_uint8 (int_add (tm_mon tm_result) 1))
        (to_uint8 (tm_mday tm_result))
        (to_uint8 (tm_hour tm_result))
        (to_uint8 (tm_min tm_result))
        (to_uint8 (tm_sec tm_result))
        nanos in
      lean_io_result_mk_ok tuple
  end.

Definition chronos_from_utc
  (year month day hour minute second nanosecond : Z) (w : world)
  : io_result (Z * Z) :=
  let tm_input :=
    {| tm_year := int_sub year 1900;
       tm_mon := int_sub month 1;
       tm_mday := day;
       tm_hour := hour;
       tm_min := minute;
       tm_sec := second;
       tm_isdst := 0 |} in
  let t := timegm tm_input in
  if t =? -1 then mk_io_error "timegm failed"
  else
    let seconds := to_int64 t in
    let nanos := nanosecond in
    lean_io_result_mk_ok (mk_pair seconds nanos).

Definition chronos_get_timezone_offset (w : world) : io_result Z :=
  let now := time_now w in
  match localtime_r (local_zone w) now with
  | None => mk_io_error "localtime_r failed"
  | Some local_tm =>
      match gmtime_r now with
      | None => mk_io_error "gmtime_r failed"
      | Some utc_tm =>
          let local_as_local := mktime (local_zone w) local_tm in
          let utc_as_local := mktime (local_zone w) utc_tm in
          let offset := to_int32 (time_sub local_as_local utc_as_local) in
          lean_io_result_mk_ok offset
      end
  end.

(** A host whose zone is UTC, read at the epoch. *)
Definition utc_world : world :=
  {| clock_realtime := Some (0, 0); time_now := 0;
     local_zone := {| utc_off_std := 0; utc_off_dst := 0;
                      dst_active := fun _ => false |} |}.


(** ** Reading the results *)

(** Readers of the nested tuple. *)
Definition dt_year (dt : DateTimeTuple) : Z := fst dt.
Definition dt_month (dt : DateTimeTuple) : Z := fst (snd dt).
Definition dt_day (dt : DateTimeTuple) : Z := fst (snd (snd dt)).
Definition dt_hour (dt : DateTimeTuple) : Z := fst (snd (snd (snd dt))).
Definition dt_minute (dt : DateTimeTuple) : Z := fst (snd (snd (snd (snd dt)))).
Definition dt_second (dt : DateTimeTuple) : Z :=
  fst (snd (snd (snd (snd (snd dt))))).
Definition dt_nanosecond (dt : DateTimeTuple) : Z :=
  snd (snd (snd (snd (snd (snd dt))))).

(** Sequencing of [IO] results. *)
Definition io_bind {A B : Type} (r : io_result A) (k : A -> io_result B)
  : io_result B :=
  match r with
  | io_ok a => k a
  | io_error msg => io_error msg
  end.

(** The inverse binding on a tuple of civil fields. *)
Definition from_civil (dt : DateTimeTuple) (w : world) : io_result (Z * Z) :=
  chronos_from_utc (dt_year dt) (dt_month dt) (dt_day dt) (dt_hour dt)
                   (dt_minute dt) (dt_second dt) (dt_nanosecond dt) w.

(** fromCivil after toCivil, as a caller composes the two bindings. *)
Definition from_utc_of_to_utc (seconds nanos : Z) (w : world)
  : io_result (Z * Z) :=
  io_bind (chronos_to_utc seconds nanos w) (fun dt => from_civil dt w).

(** The [struct tm] that [chronos_from_utc] hands to [timegm]. *)
Definition tm_input_of (year month day hour minute second : Z) : tm :=
  {| tm_year := int_sub year 1900;
     tm_mon := int_sub month 1;
     tm_mday := day;
     tm_hour := hour;
     tm_min := minute;
     tm_sec := second;
     tm_isdst := 0 |}.

(** The tuple both forward bindings build from a [struct tm]. *)
Definition tuple_of_tm (b : tm) (nanos : Z) : DateTimeTuple :=
  mk_datetime_tuple
    (to_int32 (int_add (tm_year b) 1900))
    (to_uint8 (int_add (tm_mon b) 1))
    (to_uint8 (tm_mday b))
    (to_uint8 (tm_hour b))
    (to_uint8 (tm_min b))
    (to_uint8 (tm_sec b))
    nanos.

(** The second count the carry-over rule gives to arbitrary fields: months
    beyond December (or before January) move the year, and days, hours,
    minutes and seconds count on from the first of the month. *)
Definition carry_over_seconds (y mo d h mi se : Z) : Z :=
  (days_from_civil (y + (mo - 1) / 12) ((mo - 1) mod 12 + 1) 1 + (d - 1))
  * 86400 + h * 3600 + mi * 60 + se.

(** An [IO] outcome is a value that satisfies [complete], or one of the
    listed messages and nothing else. *)
Definition outcome {A : Type} (complete : A -> Prop) (msgs : list string)
  (r : io_result A) : Prop :=
  match r with
  | io_ok a => complete a
  | io_error msg => In msg msgs
  end.

(** All seven civil fields are present, each a value of its type, and the
    last one is the nanosecond count handed in. *)
Definition complete_datetime (nanos : Z) (dt : DateTimeTuple) : Prop :=
  INT_MIN <= dt_year dt <= INT_MAX /\
  0 <= dt_month dt <= 255 /\ 0 <= dt_day dt <= 255 /\
  0 <= dt_hour dt <= 255 /\ 0 <= dt_minute dt <= 255 /\
  0 <= dt_second dt <= 255 /\ dt_nanosecond dt = nanos.

(** ** The offset of the specification *)

(** The offset as section 4.3 of the specification words it: one instant
    from the clock reader, decomposed as UTC and as local time, both
    decompositions read back as UTC civil times, and the difference of the
    two instants. *)
Definition localOffsetNow_spec (w : world) : io_result Z :=
  io_bind (chronos_now w) (fun i =>
  io_bind (chronos_to_utc (fst i) (snd i) w) (fun utc_fields =>
  io_bind (chronos_to_local (fst i) (snd i) w) (fun local_fields =>
  io_bind (from_civil utc_fields w) (fun utc_instant =>
  io_bind (from_civil local_fields w) (fun local_instant =>
  io_ok (to_int32 (fst local_instant - fst utc_instant))))))).

(** Central European Time with the daylight-saving period of 2024
    (March 31st 01:00 UTC to October 27th 01:00 UTC). *)
Definition cet_2024 : zone :=
  {| utc_off_std := 3600;
     utc_off_dst := 7200;
     dst_active := fun t => (1711846800 <=? t) && (t <? 1729990800) |}.

(** A host in that zone on 2024-07-03 at 09:46:40 UTC. *)
Definition cet_summer_world : world :=
  {| clock_realtime := Some (1720000000, 0);
     time_now := 1720000000;
     local_zone := cet_2024 |}.

(** ** Bounded checks over one 400-year cycle *)

Module CycleCheck.

(** A universal check run over [fuel] consecutive integers from [i]. *)
Fixpoint all_from (fuel : nat) (i : Z) (p : Z -> bool) : bool :=
  match fuel with
  | O => true
  | S fuel' => if p i then all_from fuel' (i + 1) p else false
  end.

(** What one day of the cycle must satisfy: the civil date found for it is
    a real date of the calendar and counts back to the same day. *)
Definition day_ok (doe : Z) : bool :=
  let z := doe - 719468 in
  let '(y, m, d) := civil_from_days z in
  (1 <=? m) && (m <=? 12) && (1 <=? d) && (d <=? days_in_month y m)
  && (days_from_civil y m d =? z).

(** What one year of the cycle must satisfy: its length is the one the leap
    rule gives, and so are the lengths of its months. *)
Definition year_ok (y : Z) : bool :=
  (days_from_civil (y + 1) 1 1 - days_from_civil y 1 1 =? days_in_year y)
  && forallb (fun m => days_from_civil y (m + 1) 1 - days_from_civil y m 1
                       =? days_in_month y m)
             [1; 2; 3; 4; 5; 6; 7; 8; 9; 10; 11]
  && (days_from_civil (y + 1) 1 1 - days_from_civil y 12 1 =? days_in_month y 12).

End CycleCheck.

(** ** Further compositions and hosts *)

(** toCivil after fromCivil, as a caller composes the two bindings. *)
Definition to_utc_of_from_utc (year month day hour minute second nanos : Z)
  (w : world) : io_result DateTimeTuple :=
  io_bind (chronos_from_utc year month day hour minute second nanos w)
          (fun i => chronos_to_utc (fst i) (snd i) w).

(** The clock read followed by the conversion to UTC fields and back. *)
Definition roundtrip_of_now (w : world) : io_result (Z * Z) :=
  io_bind (chronos_now w) (fun i => from_utc_of_to_utc (fst i) (snd i) w).

(** The local fields of an instant, read back as if they were UTC. *)
Definition from_civil_of_to_local (seconds nanos : Z) (w : world)
  : io_result (Z * Z) :=
  io_bind (chronos_to_local seconds nanos w) (fun dt => from_civil dt w).


(** Fields that name a date of the calendar and a time of day. *)
Definition valid_civil (y mo d h mi se : Z) : Prop :=
  INT_MIN + 1900 <= y <= INT_MAX /\
  1 <= mo <= 12 /\ 1 <= d <= days_in_month y mo /\
  0 <= h <= 23 /\ 0 <= mi <= 59 /\ 0 <= se <= 59.

(** The first and the last year [tm_year] can hold, with the first second
    of the one and the last second of the other. *)
Definition earliest_year : Z := INT_MIN + 1900.
Definition latest_year : Z := INT_MAX + 1900.
Definition earliest_second : Z := days_from_civil earliest_year 1 1 * 86400.
Definition latest_second : Z :=
  days_from_civil (latest_year + 1) 1 1 * 86400 - 1.

(** Whether the year of a second count fits [tm_year]. *)
Definition year_fits (t : Z) : bool :=
  (earliest_second <=? t) && (t <=? latest_second).

(** ** Bounded check of the dates of one 400-year cycle *)

Module DateCheck.

Import CycleCheck.

(** What one date must satisfy, if it exists: the day count of the date
    decomposes into the same date. *)
Definition date_ok (y m d : Z) : bool :=
  if d <=? days_in_month y m then
    let '(y', m', d') := civil_from_days (days_from_civil y m d) in
    (y' =? y) && (m' =? m) && (d' =? d)
  else true.

Definition year_dates_ok (y : Z) : bool :=
  all_from 12 1 (fun m => all_from 31 1 (fun d => date_ok y m d)).

End DateCheck.

(** * Properties *)

(** ** Casts that do nothing on values of their type *)

Section Casts.

Lemma to_int32_id (x : Z) : INT_MIN <= x <= INT_MAX -> to_int32 x = x.
Proof.
  unfold to_int32, wrap_signed, INT_MIN, INT_MAX. intros H.
  change (2 ^ (32 - 1)) with 2147483648. change (2 ^ 32) with 4294967296.
  change (2 ^ 31) with 2147483648 in H.
  rewrite Z.mod_small; lia.
Qed.

Lemma to_int64_id (x : Z) : INT64_MIN <= x <= INT64_MAX -> to_int64 x = x.
Proof.
  unfold to_int64, wrap_signed, INT64_MIN, INT64_MAX. intros H.
  change (2 ^ (64 - 1)) with 9223372036854775808.
  change (2 ^ 64) with 18446744073709551616.
  change (2 ^ 63) with 9223372036854775808 in H.
  rewrite Z.mod_small; lia.
Qed.

Lemma to_uint8_id (x : Z) : 0 <= x <= 255 -> to_uint8 x = x.
Proof.
  unfold to_uint8, wrap_unsigned. intros H.
  change (2 ^ 8) with 256. rewrite Z.mod_small; lia.
Qed.

Lemma to_uint8_range (x : Z) : 0 <= to_uint8 x <= 255.
Proof.
  unfold to_uint8, wrap_unsigned. change (2 ^ 8) with 256.
  pose proof (Z.mod_pos_bound x 256). lia.
Qed.

Lemma to_int32_range (x : Z) : INT_MIN <= to_int32 x <= INT_MAX.
Proof.
  unfold to_int32, wrap_signed, INT_MIN, INT_MAX.
  change (2 ^ (32 - 1)) with 2147483648. change (2 ^ 32) with 4294967296.
  change (2 ^ 31) with 2147483648.
  pose proof (Z.mod_pos_bound (x + 2147483648) 4294967296). lia.
Qed.

(** Adding a constant and taking it away again, both in wrapping [int]
    arithmetic, gives back an [int]. *)
Lemma int_sub_add_cancel (x c : Z) :
  INT_MIN <= x <= INT_MAX -> int_sub (to_int32 (int_add x c)) c = x.
Proof.
  intros H. unfold int_sub, int_add.
  rewrite (to_int32_id (to_int32 (x + c))) by apply to_int32_range.
  rewrite <- (to_int32_id x) at 2 by exact H.
  unfold to_int32, wrap_signed.
  change (2 ^ (32 - 1)) with 2147483648. change (2 ^ 32) with 4294967296.
  f_equal.
  replace ((x + c + 2147483648) mod 4294967296 - 2147483648 - c + 2147483648)
    with ((x + c + 2147483648) mod 4294967296 - c) by lia.
  rewrite Zminus_mod_idemp_l. f_equal. lia.
Qed.

Lemma in_int_true (x : Z) : in_int x = true <-> INT_MIN <= x <= INT_MAX.
Proof. unfold in_int. rewrite andb_true_iff, !Z.leb_le. tauto. Qed.

Lemma in_int64_true (x : Z) : in_int64 x = true <-> INT64_MIN <= x <= INT64_MAX.
Proof. unfold in_int64. rewrite andb_true_iff, !Z.leb_le. tauto. Qed.

End Casts.

(** ** The calendar model: day counts and civil dates are inverse *)

Module Calendar.

Import CycleCheck.

Lemma all_from_spec (fuel : nat) (p : Z -> bool) :
  forall i, all_from fuel i p = true ->
  forall j, i <= j < i + Z.of_nat fuel -> p j = true.
Proof.
  induction fuel as [| fuel IH]; intros i Hall j Hj.
  - simpl in Hj. lia.
  - simpl in Hall. destruct (p i) eqn:Hpi; [| discriminate].
    destruct (Z.eq_dec j i) as [-> | Hne]; [exact Hpi |].
    apply (IH (i + 1) Hall). lia.
Qed.

Lemma all_below_spec (n : Z) (p : Z -> bool) :
  all_from (Z.to_nat n) 0 p = true -> forall j, 0 <= j < n -> p j = true.
Proof.
  intros Hall j Hj. apply (all_from_spec _ _ _ Hall). rewrite Z2Nat.id; lia.
Qed.

Lemma cycle_days_ok : all_from (Z.to_nat 146097) 0 day_ok = true.
Proof. vm_compute. reflexivity. Qed.

Lemma cycle_years_ok : all_from (Z.to_nat 400) 0 year_ok = true.
Proof. vm_compute. reflexivity. Qed.

Lemma is_leap_shift (y k : Z) : is_leap (y + 400 * k) = is_leap y.
Proof.
  unfold is_leap.
  replace ((y + 400 * k) mod 4) with (y mod 4)
    by (Z.div_mod_to_equations; lia).
  replace ((y + 400 * k) mod 100) with (y mod 100)
    by (Z.div_mod_to_equations; lia).
  replace ((y + 400 * k) mod 400) with (y mod 400)
    by (Z.div_mod_to_equations; lia).
  reflexivity.
Qed.

Lemma leaps_before_shift (y k : Z) :
  leaps_before (y + 400 * k) = leaps_before y + 97 * k.
Proof. unfold leaps_before. Z.div_mod_to_equations. lia. Qed.

Lemma days_from_civil_shift (y m d k : Z) :
  days_from_civil (y + 400 * k) m d = days_from_civil y m d + 146097 * k.
Proof.
  unfold days_from_civil, days_before_year.
  rewrite is_leap_shift, leaps_before_shift. lia.
Qed.

Lemma days_in_month_shift (y m k : Z) :
  days_in_month (y + 400 * k) m = days_in_month y m.
Proof. unfold days_in_month. rewrite is_leap_shift. reflexivity. Qed.

Lemma civil_from_days_shift (z k : Z) :
  civil_from_days (z + 146097 * k) =
  let '(y, m, d) := civil_from_days z in (y + 400 * k, m, d).
Proof.
  unfold civil_from_days.
  replace (z + 146097 * k + 719468) with (z + 719468 + k * 146097) by lia.
  rewrite Z.div_add, Z.mod_add by lia.
  set (doe := (z + 719468) mod 146097).
  set (yoe := (doe - doe / 1460 + doe / 36524 - doe / 146096) / 365).
  set (doy := doe - (365 * yoe + yoe / 4 - yoe / 100)).
  set (mp := (5 * doy + 2) / 153).
  destruct ((if mp <? 10 then mp + 3 else mp - 9) <=? 2); f_equal; f_equal; lia.
Qed.

(** Every day count has a civil date, that date exists in the calendar, and
    counting its days gives the day count back. *)
Lemma civil_from_days_sound (z : Z) :
  let '(y, m, d) := civil_from_days z in
  1 <= m <= 12 /\ 1 <= d <= days_in_month y m /\ days_from_civil y m d = z.
Proof.
  set (k := (z + 719468) / 146097).
  set (doe := (z + 719468) mod 146097).
  assert (Hz : z = doe - 719468 + 146097 * k).
  { unfold k, doe. pose proof (Z.div_mod (z + 719468) 146097). lia. }
  assert (Hdoe : 0 <= doe < 146097).
  { unfold doe. pose proof (Z.mod_pos_bound (z + 719468) 146097). lia. }
  pose proof (all_below_spec _ _ cycle_days_ok doe Hdoe) as Hok.
  unfold day_ok in Hok.
  clearbody k doe. subst z. rewrite civil_from_days_shift.
  destruct (civil_from_days (doe - 719468)) as [[y m] d].
  rewrite !andb_true_iff, !Z.leb_le, Z.eqb_eq in Hok.
  rewrite days_in_month_shift, days_from_civil_shift. lia.
Qed.

(** The day count follows the Gregorian rule: consecutive years are 365 or
    366 days apart as [is_leap] says. *)
Lemma year_length (y : Z) :
  days_from_civil (y + 1) 1 1 - days_from_civil y 1 1 = days_in_year y.
Proof.
  set (k := y / 400). set (r := y mod 400).
  assert (Hy : y = r + 400 * k).
  { unfold k, r. pose proof (Z.div_mod y 400). lia. }
  assert (Hr : 0 <= r < 400).
  { unfold r. pose proof (Z.mod_pos_bound y 400). lia. }
  pose proof (all_below_spec _ _ cycle_years_ok r Hr) as Hok.
  unfold year_ok in Hok. rewrite !andb_true_iff, Z.eqb_eq in Hok.
  destruct Hok as [[Hyear _] _].
  rewrite Hy. replace (r + 400 * k + 1) with (r + 1 + 400 * k) by lia.
  rewrite !days_from_civil_shift. unfold days_in_year in *.
  rewrite is_leap_shift. lia.
Qed.

(** Consecutive months are as many days apart as the first one is long. *)
Lemma month_length (y m : Z) :
  1 <= m <= 11 ->
  days_from_civil y (m + 1) 1 - days_from_civil y m 1 = days_in_month y m.
Proof.
  intros Hm.
  set (k := y / 400). set (r := y mod 400).
  assert (Hy : y = r + 400 * k).
  { unfold k, r. pose proof (Z.div_mod y 400). lia. }
  assert (Hr : 0 <= r < 400).
  { unfold r. pose proof (Z.mod_pos_bound y 400). lia. }
  pose proof (all_below_spec _ _ cycle_years_ok r Hr) as Hok.
  unfold year_ok in Hok. rewrite !andb_true_iff in Hok.
  destruct Hok as [[_ Hmonths] _].
  rewrite forallb_forall in Hmonths.
  assert (Hin : In m [1; 2; 3; 4; 5; 6; 7; 8; 9; 10; 11]).
  { assert (Hc : m = 1 \/ m = 2 \/ m = 3 \/ m = 4 \/ m = 5 \/ m = 6 \/ m = 7
                 \/ m = 8 \/ m = 9 \/ m = 10 \/ m = 11) by lia.
    cbn [In]. intuition. }
  specialize (Hmonths m Hin). apply Z.eqb_eq in Hmonths.
  rewrite Hy, !days_from_civil_shift, days_in_month_shift. lia.
Qed.

(** December ends where the next year begins. *)
Lemma december_length (y : Z) :
  days_from_civil (y + 1) 1 1 - days_from_civil y 12 1 = days_in_month y 12.
Proof.
  set (k := y / 400). set (r := y mod 400).
  assert (Hy : y = r + 400 * k).
  { unfold k, r. pose proof (Z.div_mod y 400). lia. }
  assert (Hr : 0 <= r < 400).
  { unfold r. pose proof (Z.mod_pos_bound y 400). lia. }
  pose proof (all_below_spec _ _ cycle_years_ok r Hr) as Hok.
  unfold year_ok in Hok. rewrite !andb_true_iff in Hok.
  destruct Hok as [_ Hdec]. apply Z.eqb_eq in Hdec.
  rewrite Hy. replace (r + 400 * k + 1) with (r + 1 + 400 * k) by lia.
  rewrite !days_from_civil_shift, days_in_month_shift. lia.
Qed.

(** The epoch is day 0. *)
Lemma epoch_day : days_from_civil 1970 1 1 = 0.
Proof. reflexivity. Qed.

End Calendar.


(** ** The C library model: decomposition and recomposition *)

Module LibcFacts.

Import Calendar.

Lemma days_in_month_le_31 (y m : Z) : 1 <= m <= 12 -> days_in_month y m <= 31.
Proof.
  intros Hm. unfold days_in_month.
  assert (Hc : m = 1 \/ m = 2 \/ m = 3 \/ m = 4 \/ m = 5 \/ m = 6 \/ m = 7
               \/ m = 8 \/ m = 9 \/ m = 10 \/ m = 11 \/ m = 12) by lia.
  destruct (is_leap y);
    repeat (destruct Hc as [-> | Hc]; [simpl; lia |]); subst m; simpl; lia.
Qed.

Lemma days_before_month_range (l : bool) (m : Z) :
  1 <= m <= 12 -> 0 <= days_before_month l m <= 335.
Proof.
  intros Hm.
  assert (Hc : m = 1 \/ m = 2 \/ m = 3 \/ m = 4 \/ m = 5 \/ m = 6 \/ m = 7
               \/ m = 8 \/ m = 9 \/ m = 10 \/ m = 11 \/ m = 12) by lia.
  destruct l;
    repeat (destruct Hc as [-> | Hc]; [vm_compute; split; discriminate |]);
    subst m; vm_compute; split; discriminate.
Qed.

(** The day of the month enters the day count linearly. *)
Lemma days_from_civil_day (y m d : Z) :
  days_from_civil y m 1 + (d - 1) = days_from_civil y m d.
Proof. unfold days_from_civil. lia. Qed.

(** The year of a day count is within a year of [z / 365.2425 + 1970]. *)
Lemma civil_year_bounds (z : Z) :
  let '(y, _, _) := civil_from_days z in
  400 * z - 147000 <= 146097 * (y - 1970) <= 400 * z + 1000.
Proof.
  pose proof (civil_from_days_sound z) as H.
  destruct (civil_from_days z) as [[y m] d].
  destruct H as (Hm & Hd & Hz).
  pose proof (days_in_month_le_31 y m Hm).
  pose proof (days_before_month_range (is_leap y) m Hm).
  unfold days_from_civil, days_before_year, leaps_before in Hz.
  change ((1970 - 1) / 4 - (1970 - 1) / 100 + (1970 - 1) / 400) with 477 in Hz.
  Z.div_mod_to_equations. lia.
Qed.

(** What [secs_to_tm] stores when it succeeds: fields within their nominal
    ranges that recompose to the second count. *)
Lemma secs_to_tm_some (t isdst : Z) (b : tm) :
  secs_to_tm t isdst = Some b ->
  0 <= tm_sec b <= 59 /\ 0 <= tm_min b <= 59 /\ 0 <= tm_hour b <= 23 /\
  1 <= tm_mday b <= 31 /\ 0 <= tm_mon b <= 11 /\
  INT_MIN <= tm_year b <= INT_MAX /\ tm_isdst b = isdst /\
  tm_to_secs b = t.
Proof.
  unfold secs_to_tm.
  pose proof (civil_from_days_sound (t / 86400)) as H.
  destruct (civil_from_days (t / 86400)) as [[y m] d].
  destruct H as (Hm & Hd & Hz).
  pose proof (days_in_month_le_31 y m Hm) as H31.
  destruct (in_int (y - 1900)) eqn:Hy; [| discriminate].
  apply in_int_true in Hy.
  intros Hb. injection Hb as <-. cbn [tm_sec tm_min tm_hour tm_mday tm_mon
                                      tm_year tm_isdst].
  repeat split; try lia; try (Z.div_mod_to_equations; lia).
  unfold tm_to_secs. cbn [tm_sec tm_min tm_hour tm_mday tm_mon tm_year].
  replace ((m - 1) / 12) with 0 by (Z.div_mod_to_equations; lia).
  replace ((m - 1) mod 12 + 1) with m by (Z.div_mod_to_equations; lia).
  replace (y - 1900 + 1900 + 0) with y by lia.
  rewrite days_from_civil_day, Hz.
  Z.div_mod_to_equations. lia.
Qed.

(** [secs_to_tm] succeeds exactly when the year fits [tm_year]. *)
Lemma secs_to_tm_none (t isdst : Z) :
  secs_to_tm t isdst = None <->
  in_int (fst (fst (civil_from_days (t / 86400))) - 1900) = false.
Proof.
  unfold secs_to_tm.
  destruct (civil_from_days (t / 86400)) as [[y m] d]. cbn [fst].
  destruct (in_int (y - 1900)); split; intros H; congruence.
Qed.

(** Second counts up to 2^55 in magnitude have a year that fits. *)
Lemma secs_to_tm_in_range (t isdst : Z) :
  - 36028797018963968 <= t <= 36028797018963968 ->
  secs_to_tm t isdst <> None.
Proof.
  intros Ht Hnone. apply secs_to_tm_none in Hnone.
  pose proof (civil_year_bounds (t / 86400)) as Hy.
  destruct (civil_from_days (t / 86400)) as [[y m] d]. cbn [fst] in Hnone.
  assert (Hin : in_int (y - 1900) = true).
  { apply in_int_true. unfold INT_MIN, INT_MAX.
    change (2 ^ 31) with 2147483648.
    Z.div_mod_to_equations. lia. }
  congruence.
Qed.

(** With [int] fields the recomposed second count always fits [time_t]. *)
Lemma tm_to_secs_fits (b : tm) :
  INT_MIN <= tm_year b <= INT_MAX -> INT_MIN <= tm_mon b <= INT_MAX ->
  INT_MIN <= tm_mday b <= INT_MAX -> INT_MIN <= tm_hour b <= INT_MAX ->
  INT_MIN <= tm_min b <= INT_MAX -> INT_MIN <= tm_sec b <= INT_MAX ->
  INT64_MIN <= tm_to_secs b <= INT64_MAX.
Proof.
  unfold INT_MIN, INT_MAX, INT64_MIN, INT64_MAX.
  change (2 ^ 31) with 2147483648. change (2 ^ 63) with 9223372036854775808.
  intros Hy Hmo Hd Hh Hmi Hs. unfold tm_to_secs.
  set (y := tm_year b + 1900 + tm_mon b / 12).
  set (m := tm_mon b mod 12 + 1).
  assert (Hm : 1 <= m <= 12) by (unfold m; Z.div_mod_to_equations; lia).
  pose proof (days_before_month_range (is_leap y) m Hm) as Hbm.
  assert (Hyr : -2400000000 <= y <= 2400000000)
    by (unfold y; Z.div_mod_to_equations; lia).
  unfold days_from_civil, days_before_year, leaps_before.
  change ((1970 - 1) / 4 - (1970 - 1) / 100 + (1970 - 1) / 400) with 477.
  clearbody y m. Z.div_mod_to_equations. lia.
Qed.

(** A date of the calendar lies within its year. *)
Lemma day_of_year_range (y m d : Z) :
  1 <= m <= 12 -> 1 <= d <= days_in_month y m ->
  0 <= days_before_month (is_leap y) m + (d - 1) < days_in_year y.
Proof.
  intros Hm. unfold days_in_month, days_in_year.
  assert (Hc : m = 1 \/ m = 2 \/ m = 3 \/ m = 4 \/ m = 5 \/ m = 6 \/ m = 7
               \/ m = 8 \/ m = 9 \/ m = 10 \/ m = 11 \/ m = 12) by lia.
  assert (Hcase : forall (l : bool) (k len before : Z),
            nth (Z.to_nat (k - 1)) (month_lengths l) 0 = len ->
            days_before_month l k = before ->
            before + len <= (if l then 366 else 365) -> 0 <= before ->
            1 <= d <= nth (Z.to_nat (k - 1)) (month_lengths l) 0 ->
            0 <= days_before_month l k + (d - 1) < (if l then 366 else 365)).
  { intros l k len before -> -> Hsum Hpos Hd. lia. }
  destruct (is_leap y);
    repeat (destruct Hc as [-> | Hc];
            [eapply Hcase; [reflexivity | reflexivity |
                            vm_compute; discriminate |
                            vm_compute; discriminate] |]);
    subst m;
    (eapply Hcase; [reflexivity | reflexivity | vm_compute; discriminate |
                    vm_compute; discriminate]).
Qed.

Lemma days_from_civil_january (y : Z) :
  days_from_civil y 1 1 = days_before_year y.
Proof.
  unfold days_from_civil.
  change (days_before_month (is_leap y) 1) with 0. lia.
Qed.

Lemma days_before_year_step (y : Z) :
  days_before_year (y + 1) = days_before_year y + days_in_year y.
Proof.
  pose proof (year_length y) as H.
  rewrite !days_from_civil_january in H. lia.
Qed.

Lemma days_before_year_mono (y y' : Z) :
  y <= y' -> days_before_year y <= days_before_year y'.
Proof.
  intros H. unfold days_before_year, leaps_before.
  Z.div_mod_to_equations. lia.
Qed.

(** The year of a day count is at least [Y] exactly from January 1st of
    [Y] on. *)
Lemma civil_year_ge (z Y : Z) :
  Y <= fst (fst (civil_from_days z)) <-> days_before_year Y <= z.
Proof.
  pose proof (civil_from_days_sound z) as H.
  destruct (civil_from_days z) as [[y m] d]. cbn [fst].
  destruct H as (Hm & Hd & Hz).
  pose proof (day_of_year_range y m d Hm Hd) as Hdoy.
  unfold days_from_civil in Hz.
  split; intros HY.
  - pose proof (days_before_year_mono Y y HY). lia.
  - destruct (Z_le_gt_dec Y y) as [Hle | Hgt]; [exact Hle | exfalso].
    assert (Hnext : y + 1 <= Y) by lia.
    pose proof (days_before_year_mono (y + 1) Y Hnext) as Hmono.
    rewrite days_before_year_step in Hmono. lia.
Qed.

(** [secs_to_tm] succeeds exactly between the first second of the first
    year and the last second of the last year that fit [tm_year]. *)
Lemma secs_to_tm_year_fits (t isdst : Z) :
  secs_to_tm t isdst = None <-> year_fits t = false.
Proof.
  rewrite secs_to_tm_none.
  pose proof (civil_year_ge (t / 86400) earliest_year) as Hlo.
  pose proof (civil_year_ge (t / 86400) (latest_year + 1)) as Hhi.
  rewrite <- !days_from_civil_january in Hlo, Hhi.
  set (y := fst (fst (civil_from_days (t / 86400)))) in *.
  assert (Hin : in_int (y - 1900) = true <->
                earliest_year <= y /\ ~ latest_year + 1 <= y).
  { rewrite in_int_true. unfold earliest_year, latest_year. lia. }
  assert (Hfit : year_fits t = true <->
                 days_from_civil earliest_year 1 1 <= t / 86400 /\
                 ~ days_from_civil (latest_year + 1) 1 1 <= t / 86400).
  { unfold year_fits, earliest_second, latest_second.
    rewrite andb_true_iff, !Z.leb_le.
    generalize (days_from_civil earliest_year 1 1).
    generalize (days_from_civil (latest_year + 1) 1 1).
    intros a b. Z.div_mod_to_equations. lia. }
  destruct (in_int (y - 1900)), (year_fits t); split; intros H;
    try reflexivity; try discriminate; exfalso.
  - assert (Ht : true = true) by reflexivity.
    apply Hin in Ht. rewrite Hlo, Hhi in Ht. apply Hfit in Ht. discriminate.
  - assert (Ht : true = true) by reflexivity.
    apply Hfit in Ht. rewrite <- Hlo, <- Hhi in Ht. apply Hin in Ht.
    discriminate.
Qed.

Lemma secs_to_tm_fits_some (t isdst : Z) :
  year_fits t = true -> exists b, secs_to_tm t isdst = Some b.
Proof.
  intros H. destruct (secs_to_tm t isdst) as [b |] eqn:Hb.
  - exists b. reflexivity.
  - apply secs_to_tm_year_fits in Hb. congruence.
Qed.

Lemma secs_to_tm_some_fits (t isdst : Z) (b : tm) :
  secs_to_tm t isdst = Some b -> year_fits t = true.
Proof.
  intros H. destruct (year_fits t) eqn:Hf; [reflexivity |].
  apply (secs_to_tm_year_fits t isdst) in Hf. congruence.
Qed.

(** What [timegm] returns. *)
Lemma timegm_value (b : tm) :
  timegm b =
  if in_int64 (tm_to_secs b) && year_fits (tm_to_secs b)
  then tm_to_secs b else -1.
Proof.
  unfold timegm. destruct (in_int64 (tm_to_secs b)); [| reflexivity].
  cbn [andb]. destruct (secs_to_tm (tm_to_secs b) 0) as [b' |] eqn:Hb.
  - rewrite (secs_to_tm_some_fits _ _ _ Hb). reflexivity.
  - apply secs_to_tm_year_fits in Hb. rewrite Hb. reflexivity.
Qed.

End LibcFacts.

(** ** The bindings: results in closed form *)

Import LibcFacts.

Section Bindings.

Variable w : world.

Lemma chronos_to_utc_some (s n : Z) (b : tm) :
  gmtime_r (to_int64 s) = Some b ->
  chronos_to_utc s n w =
  io_ok (to_int32 (int_add (tm_year b) 1900),
         (tm_mon b + 1, (tm_mday b, (tm_hour b, (tm_min b, (tm_sec b, n)))))).
Proof.
  intros Hb. unfold chronos_to_utc. rewrite Hb.
  apply secs_to_tm_some in Hb.
  destruct Hb as (Hs & Hmi & Hh & Hd & Hmo & Hy & _ & _).
  unfold lean_io_result_mk_ok, mk_datetime_tuple, mk_pair, int_add.
  unfold INT_MIN, INT_MAX in *. change (2 ^ 31) with 2147483648 in *.
  rewrite (to_int32_id (tm_mon b + 1))
    by (unfold INT_MIN, INT_MAX; change (2 ^ 31) with 2147483648; lia).
  rewrite !to_uint8_id by lia. reflexivity.
Qed.

Lemma chronos_to_utc_none (s n : Z) :
  gmtime_r (to_int64 s) = None ->
  chronos_to_utc s n w = io_error "gmtime_r failed".
Proof. intros Hb. unfold chronos_to_utc. rewrite Hb. reflexivity. Qed.

Lemma chronos_from_utc_unfold (y mo d h mi se n : Z) :
  chronos_from_utc y mo d h mi se n w =
  if timegm (tm_input_of y mo d h mi se) =? -1
  then io_error "timegm failed"
  else io_ok (to_int64 (timegm (tm_input_of y mo d h mi se)), n).
Proof. reflexivity. Qed.

(** With arguments of the binding's C types the second count fits
    [time_t]: the binding fails when the count is -1 or its year does not
    fit [tm_year], and returns the count otherwise. *)
Lemma chronos_from_utc_closed (y mo d h mi se n : Z) :
  INT_MIN <= y <= INT_MAX ->
  0 <= mo <= 255 -> 0 <= d <= 255 -> 0 <= h <= 255 ->
  0 <= mi <= 255 -> 0 <= se <= 255 ->
  chronos_from_utc y mo d h mi se n w =
  if (tm_to_secs (tm_input_of y mo d h mi se) =? -1)
     || negb (year_fits (tm_to_secs (tm_input_of y mo d h mi se)))
  then io_error "timegm failed"
  else io_ok (tm_to_secs (tm_input_of y mo d h mi se), n).
Proof.
  intros Hy Hmo Hd Hh Hmi Hse. rewrite chronos_from_utc_unfold.
  assert (Hfit : INT64_MIN <= tm_to_secs (tm_input_of y mo d h mi se)
                 <= INT64_MAX).
  { apply tm_to_secs_fits; cbn [tm_input_of tm_year tm_mon tm_mday tm_hour
                                tm_min tm_sec];
      try apply to_int32_range;
      unfold INT_MIN, INT_MAX; change (2 ^ 31) with 2147483648; lia. }
  rewrite timegm_value. rewrite (proj2 (in_int64_true _) Hfit). cbn [andb].
  destruct (year_fits (tm_to_secs (tm_input_of y mo d h mi se))).
  - cbn [negb]. rewrite orb_false_r.
    rewrite to_int64_id by exact Hfit. reflexivity.
  - cbn [negb]. rewrite orb_true_r. reflexivity.
Qed.

Lemma chronos_to_utc_tuple (s n : Z) (b : tm) :
  gmtime_r (to_int64 s) = Some b ->
  chronos_to_utc s n w = io_ok (tuple_of_tm b n).
Proof. intros Hb. unfold chronos_to_utc. rewrite Hb. reflexivity. Qed.

(** Reading back the tuple of a successful decomposition gives the second
    count that was decomposed, unless that count is -1. *)
Lemma from_civil_tuple_of_tm (t isdst n : Z) (b : tm) :
  INT64_MIN <= t <= INT64_MAX ->
  secs_to_tm t isdst = Some b ->
  from_civil (tuple_of_tm b n) w =
  if t =? -1 then io_error "timegm failed" else io_ok (t, n).
Proof.
  intros Ht Hb.
  pose proof (secs_to_tm_some _ _ _ Hb)
    as (Hse & Hmi & Hh & Hd & Hmo & Hy & Hdst & Hsecs).
  unfold from_civil, tuple_of_tm, mk_datetime_tuple, mk_pair.
  cbn [dt_year dt_month dt_day dt_hour dt_minute dt_second dt_nanosecond
       fst snd].
  rewrite chronos_from_utc_unfold.
  assert (Hin : tm_to_secs
                  (tm_input_of (to_int32 (int_add (tm_year b) 1900))
                     (to_uint8 (int_add (tm_mon b) 1)) (to_uint8 (tm_mday b))
                     (to_uint8 (tm_hour b)) (to_uint8 (tm_min b))
                     (to_uint8 (tm_sec b)))
                = tm_to_secs b).
  { unfold tm_input_of, tm_to_secs.
    cbn [tm_year tm_mon tm_mday tm_hour tm_min tm_sec].
    rewrite int_sub_add_cancel by exact Hy.
    unfold int_add, int_sub.
    rewrite (to_int32_id (tm_mon b + 1))
      by (unfold INT_MIN, INT_MAX; change (2 ^ 31) with 2147483648; lia).
    rewrite !to_uint8_id by lia.
    replace (tm_mon b + 1 - 1) with (tm_mon b) by lia.
    rewrite (to_int32_id (tm_mon b))
      by (unfold INT_MIN, INT_MAX; change (2 ^ 31) with 2147483648; lia).
    reflexivity. }
  rewrite timegm_value, Hin, Hsecs.
  rewrite (proj2 (in_int64_true t) Ht), (secs_to_tm_some_fits _ _ _ Hb).
  cbn [andb]. rewrite to_int64_id by exact Ht. reflexivity.
Qed.

(** The inverse binding applied to what the forward binding stored. *)
Lemma from_utc_of_to_utc_some (s n : Z) (b : tm) :
  INT64_MIN <= s <= INT64_MAX ->
  gmtime_r s = Some b ->
  from_utc_of_to_utc s n w =
  if s =? -1 then io_error "timegm failed" else io_ok (s, n).
Proof.
  intros Hs Hb. unfold from_utc_of_to_utc.
  rewrite (chronos_to_utc_tuple s n b) by (rewrite to_int64_id; assumption).
  cbn [io_bind]. apply (from_civil_tuple_of_tm s 0 n b Hs Hb).
Qed.

End Bindings.

(** ** Offsets *)

Section Offsets.

Variable w : world.
Local Abbreviation z := (local_zone w).
Local Abbreviation now := (time_now w).

Hypothesis now_range : - 18014398509481984 <= now <= 18014398509481984.
Hypothesis std_range : - 86400 <= utc_off_std z <= 86400.
Hypothesis dst_range : - 86400 <= utc_off_dst z <= 86400.








End Offsets.

Section Reference.

Variable w : world.

Local Abbreviation z := (local_zone w).
Local Abbreviation now := (time_now w).

Hypothesis clock_agrees : exists ns, clock_realtime w = Some (now, ns).
Hypothesis now_range : - 18014398509481984 <= now <= 18014398509481984.
Hypothesis std_range : - 86400 <= utc_off_std z <= 86400.
Hypothesis dst_range : - 86400 <= utc_off_dst z <= 86400.
Hypothesis utc_not_sentinel : now <> -1.
Hypothesis local_not_sentinel : now + zone_offset z now <> -1.



End Reference.

(** ** Outcomes *)

Section Outcomes.

Lemma tuple_of_tm_complete (b : tm) (n : Z) :
  complete_datetime n (tuple_of_tm b n).
Proof.
  unfold complete_datetime, tuple_of_tm, mk_datetime_tuple, mk_pair.
  cbn [dt_year dt_month dt_day dt_hour dt_minute dt_second dt_nanosecond
       fst snd].
  repeat split; try apply to_int32_range; apply to_uint8_range.
Qed.

Lemma timegm_range (b : tm) : INT64_MIN <= timegm b <= INT64_MAX.
Proof.
  rewrite timegm_value. destruct (in_int64 (tm_to_secs b)) eqn:Hin.
  - destruct (year_fits (tm_to_secs b)); cbn [andb].
    + apply in_int64_true. exact Hin.
    + unfold INT64_MIN, INT64_MAX.
      change (2 ^ 63) with 9223372036854775808. lia.
  - cbn [andb]. unfold INT64_MIN, INT64_MAX.
    change (2 ^ 63) with 9223372036854775808. lia.
Qed.

Lemma carry_over_seconds_tm (y mo d h mi se : Z) :
  INT_MIN + 1900 <= y <= INT_MAX -> 0 <= mo <= 255 ->
  tm_to_secs (tm_input_of y mo d h mi se) = carry_over_seconds y mo d h mi se.
Proof.
  unfold INT_MIN, INT_MAX. change (2 ^ 31) with 2147483648. intros Hy Hmo.
  unfold tm_to_secs, tm_input_of, carry_over_seconds, int_sub.
  cbn [tm_year tm_mon tm_mday tm_hour tm_min tm_sec].
  rewrite !to_int32_id
    by (unfold INT_MIN, INT_MAX; change (2 ^ 31) with 2147483648; lia).
  replace (y - 1900 + 1900) with y by lia. reflexivity.
Qed.

(** A day past the end of a month is the first day of the next month. *)
Lemma carry_over_day (y mo h mi se : Z) :
  1 <= mo <= 11 ->
  carry_over_seconds y mo (days_in_month y mo + 1) h mi se =
  carry_over_seconds y (mo + 1) 1 h mi se.
Proof.
  intros Hmo. unfold carry_over_seconds.
  replace ((mo - 1) / 12) with 0 by (Z.div_mod_to_equations; lia).
  replace ((mo + 1 - 1) / 12) with 0 by (Z.div_mod_to_equations; lia).
  replace ((mo - 1) mod 12 + 1) with mo by (Z.div_mod_to_equations; lia).
  replace ((mo + 1 - 1) mod 12 + 1) with (mo + 1)
    by (Z.div_mod_to_equations; lia).
  rewrite !Z.add_0_r.
  pose proof (Calendar.month_length y mo Hmo). lia.
Qed.

(** Sixty seconds are a minute, sixty minutes an hour, twenty-four hours
    a day. *)
Lemma carry_over_time (y mo d h mi se : Z) :
  carry_over_seconds y mo d h mi (se + 60)
  = carry_over_seconds y mo d h (mi + 1) se /\
  carry_over_seconds y mo d h (mi + 60) se
  = carry_over_seconds y mo d (h + 1) mi se /\
  carry_over_seconds y mo d (h + 24) mi se
  = carry_over_seconds y mo (d + 1) h mi se.
Proof. unfold carry_over_seconds. repeat split; lia. Qed.

(** A month past December is January of the next year. *)
Lemma carry_over_month (y d h mi se : Z) :
  carry_over_seconds y 13 d h mi se = carry_over_seconds (y + 1) 1 d h mi se.
Proof.
  unfold carry_over_seconds.
  change ((13 - 1) / 12) with 1. change ((13 - 1) mod 12 + 1) with 1.
  change ((1 - 1) / 12) with 0. change ((1 - 1) mod 12 + 1) with 1.
  rewrite Z.add_0_r. reflexivity.
Qed.

(** With arguments of the binding's types the carried-over count never
    passes the last second [tm_year] can hold. *)
Lemma carry_over_seconds_upper (y mo d h mi se : Z) :
  y <= INT_MAX -> 0 <= mo <= 255 -> d <= 255 -> h <= 255 -> mi <= 255 ->
  se <= 255 ->
  carry_over_seconds y mo d h mi se <= latest_second.
Proof.
  unfold INT_MAX. change (2 ^ 31) with 2147483648.
  intros Hy Hmo Hd Hh Hmi Hse. unfold carry_over_seconds.
  set (Y := y + (mo - 1) / 12). set (m := (mo - 1) mod 12 + 1).
  assert (Hm : 1 <= m <= 12) by (unfold m; Z.div_mod_to_equations; lia).
  assert (HY : Y <= 2147483647 + 21)
    by (unfold Y; Z.div_mod_to_equations; lia).
  pose proof (days_before_month_range (is_leap Y) m Hm) as Hbm.
  change latest_second with 67768036191676799.
  unfold days_from_civil, days_before_year, leaps_before.
  change ((1970 - 1) / 4 - (1970 - 1) / 100 + (1970 - 1) / 400) with 477.
  clearbody Y m. Z.div_mod_to_equations. lia.
Qed.

(** Only fields of the earliest year that carry back past its January 1st
    give a count before the first second [tm_year] can hold. *)
Lemma carry_over_seconds_lower (y mo d h mi se : Z) :
  earliest_year <= y -> 0 <= mo -> 0 <= d -> 0 <= h -> 0 <= mi -> 0 <= se ->
  earliest_year < y \/ (1 <= mo /\ 1 <= d) ->
  earliest_second <= carry_over_seconds y mo d h mi se.
Proof.
  intros Hy Hmo Hd Hh Hmi Hse Hcase.
  unfold carry_over_seconds, earliest_second.
  rewrite days_from_civil_january.
  set (Y := y + (mo - 1) / 12). set (m := (mo - 1) mod 12 + 1).
  assert (Hm : 1 <= m <= 12) by (unfold m; Z.div_mod_to_equations; lia).
  pose proof (days_before_month_range (is_leap Y) m Hm) as Hbm.
  unfold days_from_civil.
  change (days_before_month (is_leap Y) m + (1 - 1))
    with (days_before_month (is_leap Y) m + 0).
  assert (Hdays : days_before_year earliest_year
                  <= days_before_year Y + days_before_month (is_leap Y) m
                     + (d - 1)).
  { destruct (Z.eq_dec mo 0) as [-> | Hmo0].
    - assert (HYe : Y = y - 1) by (unfold Y; reflexivity).
      assert (Hme : m = 12) by (unfold m; reflexivity).
      assert (Hbm12 : 334 <= days_before_month (is_leap Y) m).
      { rewrite Hme. destruct (is_leap Y); vm_compute; discriminate. }
      assert (HyE : earliest_year < y) by lia.
      pose proof (days_before_year_mono earliest_year Y) as Hmono.
      lia.
    - assert (HYy : y <= Y) by (unfold Y; Z.div_mod_to_equations; lia).
      destruct Hcase as [HyE | [_ Hd1]].
      + assert (Hnext : earliest_year + 1 <= Y) by lia.
        pose proof (days_before_year_mono (earliest_year + 1) Y Hnext) as Hmono.
        rewrite days_before_year_step in Hmono.
        assert (Hlen : 365 <= days_in_year earliest_year)
          by (unfold days_in_year; destruct (is_leap earliest_year); lia).
        lia.
      + pose proof (days_before_year_mono earliest_year Y) as Hmono. lia. }
  clearbody Y m. nia.
Qed.

End Outcomes.

(** * The specification's claims *)

(** C1, as stated, fails: the instant one second before the epoch has valid
    nanoseconds and converts forward to 1969-12-31T23:59:59, and those
    fields are refused on the way back. *)
Lemma roundtrip_fails_one_second_before_epoch :
  0 <= 0 <= 999999999 /\
  chronos_to_utc (-1) 0 utc_world
  = io_ok (1969, (12, (31, (23, (59, (59, 0)))))) /\
  from_utc_of_to_utc (-1) 0 utc_world = io_error "timegm failed" /\
  from_utc_of_to_utc (-1) 0 utc_world <> io_ok (-1, 0).
Proof.
  split; [lia |]. split; [reflexivity |]. split; [reflexivity |].
  vm_compute. discriminate.
Qed.

(** C1 (amended): for every instant other than second -1 on which the
    forward conversion succeeds, which includes every second count up to
    2^55 in magnitude, converting to UTC civil fields and back gives the
    instant back, whatever the nanoseconds. *)
Theorem from_utc_to_utc_roundtrip (s n : Z) (w : world) :
  INT64_MIN <= s <= INT64_MAX ->
  s <> -1 ->
  (- 36028797018963968 <= s <= 36028797018963968 \/
   exists dt, chronos_to_utc s n w = io_ok dt) ->
  from_utc_of_to_utc s n w = io_ok (s, n).
Proof.
  intros Hs Hne Hok.
  destruct (gmtime_r s) as [b |] eqn:Hb.
  - rewrite (from_utc_of_to_utc_some w s n b Hs Hb).
    destruct (Z.eqb_spec s (-1)); [contradiction | reflexivity].
  - exfalso. destruct Hok as [Hrange | (dt & Hdt)].
    + revert Hb. apply secs_to_tm_in_range. exact Hrange.
    + rewrite chronos_to_utc_none in Hdt; [discriminate |].
      rewrite to_int64_id by exact Hs. exact Hb.
Qed.

Lemma from_utc_to_utc_roundtrip_witness :
  INT64_MIN <= 1709164800 <= INT64_MAX /\ 1709164800 <> -1 /\
  from_utc_of_to_utc 1709164800 999999999 utc_world
  = io_ok (1709164800, 999999999).
Proof.
  assert (H64 : INT64_MIN <= 1709164800 <= INT64_MAX)
    by (vm_compute; split; discriminate).
  assert (Hne : 1709164800 <> -1) by discriminate.
  split; [exact H64 | split; [exact Hne |]].
  apply (from_utc_to_utc_roundtrip 1709164800 999999999 utc_world H64 Hne).
  left. lia.
Defined.

(** C2, as stated, fails: the inverse conversion of 1969-12-31T23:59:59
    does not return the instant -1. *)
Lemma from_utc_pre_epoch_is_not_minus_one :
  chronos_from_utc 1969 12 31 23 59 59 0 utc_world <> io_ok (-1, 0).
Proof. vm_compute. discriminate. Qed.

(** C2 (amended): the inverse conversion of 1969-12-31T23:59:59 reports
    the failure "timegm failed", because the second count -1 is taken for
    the error value; the second before it converts to -2. *)
Theorem from_utc_pre_epoch_fails (n : Z) (w : world) :
  chronos_from_utc 1969 12 31 23 59 59 n w = io_error "timegm failed" /\
  chronos_from_utc 1969 12 31 23 59 58 n w = io_ok (-2, n).
Proof. split; reflexivity. Qed.

(** C3, as stated, fails: the largest 64-bit second count is representable
    and its forward conversion reports a failure. *)
Lemma to_utc_fails_at_int64_max :
  INT64_MIN <= 9223372036854775807 <= INT64_MAX /\
  chronos_to_utc 9223372036854775807 0 utc_world = io_error "gmtime_r failed".
Proof. split; [vm_compute; split; discriminate | vm_compute; reflexivity]. Qed.

(** C3 (amended): the forward conversion to UTC civil fields succeeds for
    every second count up to 2^55 in magnitude (more than a thousand
    million years either side of the epoch), and reports "gmtime_r failed"
    for every 64-bit second count of magnitude 2^57 or more, whose year no
    longer fits the C library's [int] field. *)
Theorem to_utc_success_range (s n : Z) (w : world) :
  INT64_MIN <= s <= INT64_MAX ->
  (- 36028797018963968 <= s <= 36028797018963968 ->
   exists dt, chronos_to_utc s n w = io_ok dt) /\
  (s <= - 144115188075855872 \/ 144115188075855872 <= s ->
   chronos_to_utc s n w = io_error "gmtime_r failed").
Proof.
  intros H64. pose proof (to_int64_id s H64) as E.
  split.
  - intros Hs. destruct (gmtime_r s) as [b |] eqn:Hb.
    + eexists. apply (chronos_to_utc_some w s n b). rewrite E. exact Hb.
    + exfalso. revert Hb. apply secs_to_tm_in_range. exact Hs.
  - intros Hs. apply chronos_to_utc_none. rewrite E.
    apply secs_to_tm_none.
    pose proof (civil_year_bounds (s / 86400)) as Hy.
    destruct (civil_from_days (s / 86400)) as [[y m] d]. cbn [fst].
    destruct (in_int (y - 1900)) eqn:Hin; [| reflexivity].
    exfalso. apply in_int_true in Hin. unfold INT_MIN, INT_MAX in Hin.
    change (2 ^ 31) with 2147483648 in Hin.
    Z.div_mod_to_equations. lia.
Qed.

Lemma to_utc_success_range_witness :
  INT64_MIN <= -3155760000 <= INT64_MAX /\
  exists dt, chronos_to_utc (-3155760000) 0 utc_world = io_ok dt.
Proof.
  assert (H64 : INT64_MIN <= -3155760000 <= INT64_MAX)
    by (vm_compute; split; discriminate).
  split; [exact H64 |].
  apply (proj1 (to_utc_success_range (-3155760000) 0 utc_world H64)). lia.
Defined.

(** C4: on a host in daylight-saving time the binding returns the zone's
    standard offset, while the offset of section 4.3, which is the offset
    in effect, is an hour more. *)
Theorem get_timezone_offset_ignores_dst :
  chronos_get_timezone_offset cet_summer_world = io_ok 3600 /\
  localOffsetNow_spec cet_summer_world = io_ok 7200 /\
  zone_offset (local_zone cet_summer_world) (time_now cet_summer_world) = 7200.
Proof. repeat split; vm_compute; reflexivity. Qed.

(** C5: the instant of 2024-02-29T00:00:00Z converts to February 29th 2024,
    and the civil fields 2023-02-29 are carried over to March 1st 2023; the
    instant returned never converts forward to a February 29th 2023. *)
Theorem leap_year_handling (n : Z) (w : world) :
  chronos_to_utc 1709164800 n w = io_ok (2024, (2, (29, (0, (0, (0, n)))))) /\
  chronos_from_utc 2023 2 29 0 0 0 0 w = io_ok (1677628800, 0) /\
  chronos_to_utc 1677628800 0 w = io_ok (2023, (3, (1, (0, (0, (0, 0)))))) /\
  (forall i, chronos_from_utc 2023 2 29 0 0 0 0 w = io_ok i ->
     chronos_to_utc (fst i) (snd i) w
     <> io_ok (2023, (2, (29, (0, (0, (0, 0))))))).
Proof.
  repeat split; try reflexivity.
  intros i Hi. change (chronos_from_utc 2023 2 29 0 0 0 0 w)
    with (@io_ok (Z * Z) (1677628800, 0)) in Hi.
  injection Hi as <-. cbn [fst snd].
  change (chronos_to_utc 1677628800 0 w)
    with (@io_ok DateTimeTuple (2023, (3, (1, (0, (0, (0, 0))))))).
  discriminate.
Qed.

(** C6: the epoch converts to 1970-01-01T00:00:00 with zero nanoseconds,
    and those civil fields convert back to the instant (0, 0). *)
Theorem epoch_boundary (w : world) :
  chronos_to_utc 0 0 w = io_ok (1970, (1, (1, (0, (0, (0, 0)))))) /\
  chronos_from_utc 1970 1 1 0 0 0 0 w = io_ok (0, 0).
Proof. split; reflexivity. Qed.

(** C7: for every second count and every valid nanosecond count, the
    nanosecond field of the UTC civil result is the nanosecond count given;
    no result is produced only where the C library cannot decompose the
    second count. *)
Theorem to_utc_preserves_nanosecond (s n : Z) (w : world) :
  0 <= n <= 999999999 ->
  match chronos_to_utc s n w with
  | io_ok dt => dt_nanosecond dt = n
  | io_error _ => gmtime_r (to_int64 s) = None
  end.
Proof.
  intros _. destruct (gmtime_r (to_int64 s)) as [b |] eqn:Hb.
  - rewrite (chronos_to_utc_some w s n b Hb). reflexivity.
  - rewrite (chronos_to_utc_none w s n Hb). reflexivity.
Qed.

Lemma to_utc_preserves_nanosecond_witness :
  0 <= 123456789 <= 999999999 /\
  match chronos_to_utc 1709164800 123456789 utc_world with
  | io_ok dt => dt_nanosecond dt = 123456789
  | io_error _ => gmtime_r (to_int64 1709164800) = None
  end.
Proof.
  assert (Hn : 0 <= 123456789 <= 999999999) by lia.
  split; [exact Hn |].
  apply (to_utc_preserves_nanosecond 1709164800 123456789 utc_world Hn).
Defined.

(** C8: every operation ends in a complete value of its result type or in
    one of its failure messages, never in anything between: the clock read,
    both forward conversions, the inverse conversion and the offset. *)
Theorem failure_is_atomic (w : world) :
  outcome (fun i => exists tv_sec tv_nsec,
             clock_realtime w = Some (tv_sec, tv_nsec) /\
             i = (tv_sec, to_uint32 tv_nsec))
          ["clock_gettime failed"%string] (chronos_now w) /\
  (forall s n, outcome (complete_datetime n) ["gmtime_r failed"%string]
                 (chronos_to_utc s n w)) /\
  (forall s n, outcome (complete_datetime n) ["localtime_r failed"%string]
                 (chronos_to_local s n w)) /\
  (forall y mo d h mi se n,
     outcome (fun i => INT64_MIN <= fst i <= INT64_MAX /\ fst i <> -1 /\
                       snd i = n)
             ["timegm failed"%string]
             (chronos_from_utc y mo d h mi se n w)) /\
  outcome (fun o => INT_MIN <= o <= INT_MAX)
          ["localtime_r failed"%string; "gmtime_r failed"%string]
          (chronos_get_timezone_offset w).
Proof.
  repeat split.
  - unfold chronos_now. destruct (clock_realtime w) as [[tv_sec tv_nsec] |].
    + cbn. exists tv_sec, tv_nsec. split; reflexivity.
    + cbn. left. reflexivity.
  - intros s n. unfold chronos_to_utc.
    destruct (gmtime_r (to_int64 s)) as [b |] eqn:Hb.
    + cbn [outcome lean_io_result_mk_ok]. fold (tuple_of_tm b n).
      apply tuple_of_tm_complete.
    + cbn. left. reflexivity.
  - intros s n. unfold chronos_to_local.
    destruct (localtime_r (local_zone w) (to_int64 s)) as [b |] eqn:Hb.
    + cbn [outcome lean_io_result_mk_ok]. fold (tuple_of_tm b n).
      apply tuple_of_tm_complete.
    + cbn. left. reflexivity.
  - intros y mo d h mi se n. rewrite chronos_from_utc_unfold.
    pose proof (timegm_range (tm_input_of y mo d h mi se)) as Hr.
    destruct (Z.eqb_spec (timegm (tm_input_of y mo d h mi se)) (-1)) as [He | Hne].
    + cbn. left. reflexivity.
    + cbn [outcome fst snd]. rewrite to_int64_id by exact Hr.
      repeat split; try lia; exact Hne.
  - unfold chronos_get_timezone_offset.
    destruct (localtime_r (local_zone w) (time_now w)) as [bl |].
    + destruct (gmtime_r (time_now w)) as [bu |].
      * cbn [outcome lean_io_result_mk_ok]. apply to_int32_range.
      * cbn. right. left. reflexivity.
    + cbn. left. reflexivity.
Qed.




(** C10: a nanosecond count above 999_999_999 is not checked anywhere: the
    inverse conversion returns it unchanged beside the seconds, and the
    forward conversion stores it unchanged in the civil result. *)
Theorem nanosecond_not_validated (n : Z) (w : world) :
  999999999 < n <= 4294967295 ->
  (forall y mo d h mi se,
     match chronos_from_utc y mo d h mi se n w with
     | io_ok i => snd i = n
     | io_error _ => timegm (tm_input_of y mo d h mi se) = -1
     end) /\
  (forall s,
     match chronos_to_utc s n w with
     | io_ok dt => dt_nanosecond dt = n
     | io_error _ => gmtime_r (to_int64 s) = None
     end) /\
  chronos_from_utc 1970 1 1 0 0 0 n w = io_ok (0, n) /\
  chronos_to_utc 0 n w = io_ok (1970, (1, (1, (0, (0, (0, n)))))).
Proof.
  intros _. repeat split.
  - intros y mo d h mi se. rewrite chronos_from_utc_unfold.
    destruct (Z.eqb_spec (timegm (tm_input_of y mo d h mi se)) (-1)) as [He | _].
    + exact He.
    + reflexivity.
  - intros s. destruct (gmtime_r (to_int64 s)) as [b |] eqn:Hb.
    + rewrite (chronos_to_utc_some w s n b Hb). reflexivity.
    + rewrite (chronos_to_utc_none w s n Hb). reflexivity.
Qed.

Lemma nanosecond_not_validated_witness :
  999999999 < 4294967295 <= 4294967295 /\
  chronos_from_utc 1970 1 1 0 0 0 4294967295 utc_world = io_ok (0, 4294967295) /\
  chronos_to_utc 0 4294967295 utc_world
  = io_ok (1970, (1, (1, (0, (0, (0, 4294967295)))))).
Proof.
  assert (Hn : 999999999 < 4294967295 <= 4294967295) by lia.
  split; [exact Hn |].
  apply (nanosecond_not_validated 4294967295 utc_world Hn).
Defined.

(** * Further properties of the bindings *)

(** ** Every date of the calendar is the date of its day count *)

Module Dates.

Import CycleCheck DateCheck Calendar.

Lemma cycle_dates_ok : all_from (Z.to_nat 400) 0 year_dates_ok = true.
Proof. vm_compute. reflexivity. Qed.

Lemma civil_from_days_from_civil (y m d : Z) :
  1 <= m <= 12 -> 1 <= d <= days_in_month y m ->
  civil_from_days (days_from_civil y m d) = (y, m, d).
Proof.
  intros Hm Hd.
  pose proof (days_in_month_le_31 y m Hm) as H31.
  set (k := y / 400). set (r := y mod 400).
  assert (Hy : y = r + 400 * k).
  { unfold k, r. pose proof (Z.div_mod y 400). lia. }
  assert (Hr : 0 <= r < 400).
  { unfold r. pose proof (Z.mod_pos_bound y 400). lia. }
  clearbody k r. subst y.
  rewrite days_in_month_shift in Hd, H31.
  pose proof (all_below_spec _ _ cycle_dates_ok r Hr) as Hyear.
  unfold year_dates_ok in Hyear.
  assert (Hmonth : all_from 31 1 (fun d0 => date_ok r m d0) = true).
  { apply (all_from_spec _ _ _ Hyear m). change (Z.of_nat 12) with 12. lia. }
  assert (Hdate : date_ok r m d = true).
  { apply (all_from_spec _ _ _ Hmonth d). change (Z.of_nat 31) with 31. lia. }
  unfold date_ok in Hdate.
  destruct (Z.leb_spec d (days_in_month r m)) as [_ | Hgt]; [| lia].
  rewrite days_from_civil_shift, civil_from_days_shift.
  destruct (civil_from_days (days_from_civil r m d)) as [[y' m'] d'].
  rewrite !andb_true_iff, !Z.eqb_eq in Hdate.
  destruct Hdate as [[-> ->] ->]. reflexivity.
Qed.

End Dates.

(** ** The forward conversion *)

Section Forward.

Variable w : world.

(** Time of day by floor division, also before the epoch. *)
Lemma time_of_day (t : Z) :
  (t mod 86400) / 3600 = (t / 3600) mod 24 /\
  ((t mod 86400) / 60) mod 60 = (t / 60) mod 60 /\
  (t mod 86400) mod 60 = t mod 60.
Proof. repeat split; Z.div_mod_to_equations; lia. Qed.

(** The year read back from the tuple is the calendar year whenever that
    year is an [int]. *)
Lemma year_cast (y : Z) :
  INT_MIN <= y <= INT_MAX -> to_int32 (int_add (y - 1900) 1900) = y.
Proof.
  intros Hy. unfold int_add. replace (y - 1900 + 1900) with y by lia.
  rewrite !to_int32_id; [reflexivity | exact Hy |].
  rewrite to_int32_id; exact Hy.
Qed.

(** Within 2^55 seconds of the epoch the tuple holds the Gregorian date of
    the day, that is, the date of the calendar whose day count since the
    epoch under the leap-year rule is the floor of [s / 86400], and the
    time of day by floor division, with no cast losing anything. *)
Theorem to_utc_gives_calendar_fields (s n : Z) :
  - 36028797018963968 <= s <= 36028797018963968 ->
  exists y m d,
    days_from_civil y m d = s / 86400 /\
    1 <= m <= 12 /\ 1 <= d <= days_in_month y m /\
    chronos_to_utc s n w =
    io_ok (y, (m, (d, ((s / 3600) mod 24, ((s / 60) mod 60, (s mod 60, n)))))).
Proof.
  intros Hs.
  assert (H64 : to_int64 s = s).
  { apply to_int64_id. unfold INT64_MIN, INT64_MAX.
    change (2 ^ 63) with 9223372036854775808. lia. }
  pose proof (Calendar.civil_from_days_sound (s / 86400)) as Hsound.
  pose proof (civil_year_bounds (s / 86400)) as Hyb.
  destruct (civil_from_days (s / 86400)) as [[y m] d] eqn:Hc.
  destruct Hsound as (Hm & Hd & Hday).
  exists y, m, d.
  split; [exact Hday |]. split; [exact Hm |]. split; [exact Hd |].
  assert (Hy : INT_MIN <= y <= INT_MAX).
  { unfold INT_MIN, INT_MAX. change (2 ^ 31) with 2147483648.
    Z.div_mod_to_equations. lia. }
  assert (Hy' : in_int (y - 1900) = true).
  { apply in_int_true. unfold INT_MIN, INT_MAX in *.
    change (2 ^ 31) with 2147483648 in *.
    Z.div_mod_to_equations. lia. }
  assert (Hb : gmtime_r (to_int64 s) =
               Some {| tm_sec := (s mod 86400) mod 60;
                       tm_min := ((s mod 86400) / 60) mod 60;
                       tm_hour := (s mod 86400) / 3600;
                       tm_mday := d; tm_mon := m - 1; tm_year := y - 1900;
                       tm_isdst := 0 |}).
  { rewrite H64. unfold gmtime_r, secs_to_tm. rewrite Hc, Hy'. reflexivity. }
  rewrite (chronos_to_utc_some w s n _ Hb).
  cbn [tm_sec tm_min tm_hour tm_mday tm_mon tm_year].
  rewrite (year_cast y Hy).
  destruct (time_of_day s) as (-> & -> & ->).
  replace (m - 1 + 1) with m by lia. reflexivity.
Qed.

(** Two instants with the same civil tuple are the same instant. *)
Theorem to_utc_injective (s1 n1 s2 n2 : Z) (dt : DateTimeTuple) :
  INT64_MIN <= s1 <= INT64_MAX -> INT64_MIN <= s2 <= INT64_MAX ->
  chronos_to_utc s1 n1 w = io_ok dt -> chronos_to_utc s2 n2 w = io_ok dt ->
  s1 = s2 /\ n1 = n2.
Proof.
  intros H1 H2 E1 E2.
  destruct (gmtime_r s1) as [b1 |] eqn:Hb1.
  2:{ rewrite chronos_to_utc_none in E1; [discriminate |].
      rewrite to_int64_id by exact H1. exact Hb1. }
  destruct (gmtime_r s2) as [b2 |] eqn:Hb2.
  2:{ rewrite chronos_to_utc_none in E2; [discriminate |].
      rewrite to_int64_id by exact H2. exact Hb2. }
  rewrite (chronos_to_utc_tuple w s1 n1 b1) in E1
    by (rewrite to_int64_id; assumption).
  rewrite (chronos_to_utc_tuple w s2 n2 b2) in E2
    by (rewrite to_int64_id; assumption).
  injection E1 as E1. injection E2 as E2.
  assert (Hn : n1 = n2).
  { pose proof (f_equal dt_nanosecond E1) as F1.
    pose proof (f_equal dt_nanosecond E2) as F2.
    cbn in F1, F2. congruence. }
  split; [| exact Hn].
  pose proof (from_civil_tuple_of_tm w s1 0 n1 b1 H1 Hb1) as F1.
  pose proof (from_civil_tuple_of_tm w s2 0 n2 b2 H2 Hb2) as F2.
  rewrite E1 in F1. rewrite E2 in F2. rewrite F1 in F2.
  destruct (Z.eqb_spec s1 (-1)), (Z.eqb_spec s2 (-1));
    try discriminate; congruence.
Qed.

End Forward.

Lemma to_utc_gives_calendar_fields_witness :
  exists y m d,
    days_from_civil y m d = -1 / 86400 /\
    1 <= m <= 12 /\ 1 <= d <= days_in_month y m /\
    chronos_to_utc (-1) 0 utc_world =
    io_ok (y, (m, (d, ((-1 / 3600) mod 24, ((-1 / 60) mod 60,
                                             (-1 mod 60, 0)))))).
Proof.
  apply (to_utc_gives_calendar_fields utc_world (-1) 0). lia.
Defined.

Lemma to_utc_injective_witness :
  1709164800 = 1709164800 /\ 5 = 5.
Proof.
  apply (to_utc_injective utc_world 1709164800 5 1709164800 5
           (2024, (2, (29, (0, (0, (0, 5))))))).
  - vm_compute. split; discriminate.
  - vm_compute. split; discriminate.
  - reflexivity.
  - reflexivity.
Defined.

(** ** The inverse conversion *)

Section Inverse.

Variable w : world.

Lemma valid_civil_typed (y mo d h mi se : Z) :
  valid_civil y mo d h mi se ->
  INT_MIN <= y <= INT_MAX /\ 0 <= mo <= 255 /\ 0 <= d <= 255 /\
  0 <= h <= 255 /\ 0 <= mi <= 255 /\ 0 <= se <= 255.
Proof.
  intros (Hy & Hmo & Hd & Hh & Hmi & Hse).
  pose proof (days_in_month_le_31 y mo Hmo).
  unfold INT_MIN, INT_MAX in *. change (2 ^ 31) with 2147483648 in *. lia.
Qed.

(** On valid fields the carried-over second count splits into the day
    count of the date and the second of the day. *)
Lemma carry_over_seconds_valid (y mo d h mi se : Z) :
  valid_civil y mo d h mi se ->
  carry_over_seconds y mo d h mi se
  = days_from_civil y mo d * 86400 + (h * 3600 + mi * 60 + se).
Proof.
  intros (Hy & Hmo & Hd & Hh & Hmi & Hse). unfold carry_over_seconds.
  replace ((mo - 1) / 12) with 0 by (Z.div_mod_to_equations; lia).
  replace ((mo - 1) mod 12 + 1) with mo by (Z.div_mod_to_equations; lia).
  rewrite Z.add_0_r, days_from_civil_day. lia.
Qed.

(** The second count of valid fields has a year that fits [tm_year]. *)
Lemma carry_over_seconds_fits (y mo d h mi se : Z) :
  valid_civil y mo d h mi se ->
  year_fits (carry_over_seconds y mo d h mi se) = true.
Proof.
  intros Hv. pose proof (valid_civil_typed _ _ _ _ _ _ Hv)
    as (Hy & Hmo & Hd & Hh & Hmi & Hse).
  destruct Hv as (Hy' & Hmo' & Hd' & _).
  unfold year_fits. apply andb_true_iff. split; apply Z.leb_le.
  - apply carry_over_seconds_lower; try lia.
    unfold earliest_year. lia.
  - apply carry_over_seconds_upper; lia.
Qed.

(** The inverse binding succeeds on valid fields, except when the second
    count is -1. *)
Lemma chronos_from_utc_valid (y mo d h mi se n : Z) :
  valid_civil y mo d h mi se ->
  chronos_from_utc y mo d h mi se n w =
  if carry_over_seconds y mo d h mi se =? -1
  then io_error "timegm failed"
  else io_ok (carry_over_seconds y mo d h mi se, n).
Proof.
  intros Hv. pose proof (valid_civil_typed _ _ _ _ _ _ Hv)
    as (Hy & Hmo & Hd & Hh & Hmi & Hse).
  pose proof (carry_over_seconds_fits _ _ _ _ _ _ Hv) as Hfits.
  destruct Hv as (Hy' & _).
  rewrite chronos_from_utc_closed by assumption.
  rewrite carry_over_seconds_tm by (try assumption; lia).
  rewrite Hfits. cbn [negb]. rewrite orb_false_r. reflexivity.
Qed.

(** The forward binding on the second count of valid fields gives the
    fields back. *)
Lemma chronos_to_utc_carry_over (y mo d h mi se n : Z) :
  valid_civil y mo d h mi se ->
  chronos_to_utc (carry_over_seconds y mo d h mi se) n w =
  io_ok (y, (mo, (d, (h, (mi, (se, n)))))).
Proof.
  intros Hv. pose proof (valid_civil_typed _ _ _ _ _ _ Hv) as (Hy & Hrest).
  rewrite (carry_over_seconds_valid _ _ _ _ _ _ Hv).
  destruct Hv as (Hy' & Hmo & Hd & Hh & Hmi & Hse).
  set (D := days_from_civil y mo d). set (r := h * 3600 + mi * 60 + se).
  set (t := D * 86400 + r).
  assert (Hr : 0 <= r < 86400) by (unfold r; lia).
  assert (Hdiv : t / 86400 = D) by (unfold t; Z.div_mod_to_equations; lia).
  assert (Hmod : t mod 86400 = r) by (unfold t; Z.div_mod_to_equations; lia).
  assert (Hfit : INT64_MIN <= t <= INT64_MAX).
  { pose proof (tm_to_secs_fits
                  {| tm_sec := se; tm_min := mi; tm_hour := h; tm_mday := d;
                     tm_mon := mo - 1; tm_year := y - 1900; tm_isdst := 0 |})
      as Hf.
    cbn [tm_sec tm_min tm_hour tm_mday tm_mon tm_year] in Hf.
    unfold tm_to_secs in Hf.
    cbn [tm_sec tm_min tm_hour tm_mday tm_mon tm_year] in Hf.
    replace ((mo - 1) / 12) with 0 in Hf by (Z.div_mod_to_equations; lia).
    replace ((mo - 1) mod 12 + 1) with mo in Hf
      by (Z.div_mod_to_equations; lia).
    replace (y - 1900 + 1900 + 0) with y in Hf by lia.
    rewrite days_from_civil_day in Hf. fold D in Hf.
    pose proof (days_in_month_le_31 y mo Hmo).
    unfold t, r. unfold INT_MIN, INT_MAX in *.
    change (2 ^ 31) with 2147483648 in *.
    assert (Hgoal : INT64_MIN <= D * 86400 + h * 3600 + mi * 60 + se
                    <= INT64_MAX) by (apply Hf; lia).
    lia. }
  assert (Hb : gmtime_r (to_int64 t) =
               Some {| tm_sec := se; tm_min := mi; tm_hour := h;
                       tm_mday := d; tm_mon := mo - 1; tm_year := y - 1900;
                       tm_isdst := 0 |}).
  { rewrite to_int64_id by exact Hfit. unfold gmtime_r, secs_to_tm.
    rewrite Hdiv, Hmod. unfold D.
    rewrite (Dates.civil_from_days_from_civil y mo d Hmo Hd).
    assert (Hin : in_int (y - 1900) = true).
    { apply in_int_true. unfold INT_MIN, INT_MAX in *.
      change (2 ^ 31) with 2147483648 in *. lia. }
    rewrite Hin. f_equal.
    replace (r mod 60) with se by (unfold r; Z.div_mod_to_equations; lia).
    replace ((r / 60) mod 60) with mi
      by (unfold r; Z.div_mod_to_equations; lia).
    replace (r / 3600) with h by (unfold r; Z.div_mod_to_equations; lia).
    reflexivity. }
  rewrite (chronos_to_utc_some w t n _ Hb).
  cbn [tm_sec tm_min tm_hour tm_mday tm_mon tm_year].
  rewrite (year_cast y Hy). replace (mo - 1 + 1) with mo by lia. reflexivity.
Qed.

(** Among valid fields only 1969-12-31T23:59:59 counts to -1. *)
Lemma carry_over_seconds_sentinel (y mo d h mi se : Z) :
  valid_civil y mo d h mi se ->
  carry_over_seconds y mo d h mi se = -1 ->
  y = 1969 /\ mo = 12 /\ d = 31 /\ h = 23 /\ mi = 59 /\ se = 59.
Proof.
  intros Hv Hm1.
  pose proof (chronos_to_utc_carry_over y mo d h mi se 0 Hv) as Hfwd.
  rewrite Hm1 in Hfwd.
  change (chronos_to_utc (-1) 0 w)
    with (@io_ok DateTimeTuple (1969, (12, (31, (23, (59, (59, 0)))))))
    in Hfwd.
  injection Hfwd as <- <- <- <- <- <-. repeat split; reflexivity.
Qed.

(** The day after December 31st is January 1st of the next year. *)
Lemma carry_over_day_december (y h mi se : Z) :
  carry_over_seconds y 12 (days_in_month y 12 + 1) h mi se =
  carry_over_seconds (y + 1) 1 1 h mi se.
Proof.
  unfold carry_over_seconds.
  change ((12 - 1) / 12) with 0. change ((12 - 1) mod 12 + 1) with 12.
  change ((1 - 1) / 12) with 0. change ((1 - 1) mod 12 + 1) with 1.
  rewrite !Z.add_0_r.
  pose proof (Calendar.december_length y). lia.
Qed.

(** With arguments of the binding's types, the result depends on the
    fields through their carried-over second count only. *)
Lemma chronos_from_utc_by_count (y mo d h mi se n : Z) :
  INT_MIN + 1900 <= y <= INT_MAX ->
  0 <= mo <= 255 -> 0 <= d <= 255 -> 0 <= h <= 255 ->
  0 <= mi <= 255 -> 0 <= se <= 255 ->
  chronos_from_utc y mo d h mi se n w =
  if (carry_over_seconds y mo d h mi se =? -1)
     || negb (year_fits (carry_over_seconds y mo d h mi se))
  then io_error "timegm failed"
  else io_ok (carry_over_seconds y mo d h mi se, n).
Proof.
  intros Hy Hmo Hd Hh Hmi Hse.
  rewrite chronos_from_utc_closed; try assumption.
  - rewrite carry_over_seconds_tm by assumption. reflexivity.
  - unfold INT_MIN, INT_MAX in *. change (2 ^ 31) with 2147483648 in *. lia.
Qed.

End Inverse.

(** toCivil after fromCivil is the identity on every valid civil time but
    1969-12-31T23:59:59. *)
Theorem to_utc_of_from_utc_roundtrip (y mo d h mi se n : Z) (w : world) :
  valid_civil y mo d h mi se ->
  ~ (y = 1969 /\ mo = 12 /\ d = 31 /\ h = 23 /\ mi = 59 /\ se = 59) ->
  to_utc_of_from_utc y mo d h mi se n w
  = io_ok (y, (mo, (d, (h, (mi, (se, n)))))).
Proof.
  intros Hv Hne. unfold to_utc_of_from_utc.
  rewrite (chronos_from_utc_valid w _ _ _ _ _ _ n Hv).
  destruct (Z.eqb_spec (carry_over_seconds y mo d h mi se) (-1)) as [E | _].
  - exfalso. apply Hne. exact (carry_over_seconds_sentinel w _ _ _ _ _ _ Hv E).
  - cbn [io_bind fst snd]. apply chronos_to_utc_carry_over. exact Hv.
Qed.

Lemma to_utc_of_from_utc_roundtrip_witness :
  valid_civil 2024 2 29 23 59 59 /\
  to_utc_of_from_utc 2024 2 29 23 59 59 999999999 utc_world
  = io_ok (2024, (2, (29, (23, (59, (59, 999999999)))))).
Proof.
  assert (Hv : valid_civil 2024 2 29 23 59 59).
  { unfold valid_civil. vm_compute. repeat split; discriminate. }
  split; [exact Hv |].
  apply (to_utc_of_from_utc_roundtrip 2024 2 29 23 59 59 999999999 utc_world Hv).
  intros (E & _). discriminate E.
Defined.

(** Of all valid civil times the inverse conversion refuses exactly one,
    1969-12-31T23:59:59. *)
Theorem from_utc_refuses_one_valid_time (y mo d h mi se n : Z) (w : world) :
  valid_civil y mo d h mi se ->
  (chronos_from_utc y mo d h mi se n w = io_error "timegm failed" <->
   y = 1969 /\ mo = 12 /\ d = 31 /\ h = 23 /\ mi = 59 /\ se = 59) /\
  (~ (y = 1969 /\ mo = 12 /\ d = 31 /\ h = 23 /\ mi = 59 /\ se = 59) ->
   exists t, chronos_from_utc y mo d h mi se n w = io_ok (t, n) /\
             t = carry_over_seconds y mo d h mi se).
Proof.
  intros Hv. rewrite (chronos_from_utc_valid w _ _ _ _ _ _ n Hv).
  destruct (Z.eqb_spec (carry_over_seconds y mo d h mi se) (-1)) as [E | Hne].
  - pose proof (carry_over_seconds_sentinel w _ _ _ _ _ _ Hv E) as Hs.
    split; [tauto |]. intros Hn. contradiction.
  - split.
    + split; [discriminate |].
      intros (-> & -> & -> & -> & -> & ->). exfalso. apply Hne. reflexivity.
    + intros _. eexists. split; reflexivity.
Qed.

Lemma from_utc_refuses_one_valid_time_witness :
  valid_civil 1969 12 31 23 59 58 /\
  exists t, chronos_from_utc 1969 12 31 23 59 58 5 utc_world = io_ok (t, 5) /\
            t = carry_over_seconds 1969 12 31 23 59 58.
Proof.
  assert (Hv : valid_civil 1969 12 31 23 59 58).
  { unfold valid_civil. vm_compute. repeat split; discriminate. }
  split; [exact Hv |].
  apply (proj2 (from_utc_refuses_one_valid_time 1969 12 31 23 59 58 5 utc_world Hv)).
  intros (_ & _ & _ & _ & _ & E). discriminate E.
Defined.

(** Fields one past their range mean the same instant as the fields they
    carry over to, in every month: month 13 is January of the next year,
    the day after the last of a month is the first of the next month (of
    January of the next year after December), second 60 is the next minute,
    minute 60 the next hour and hour 24 the next day. *)
Theorem from_utc_carries_over (y mo d h mi se n : Z) (w : world) :
  INT_MIN + 1900 <= y < INT_MAX ->
  1 <= mo <= 12 -> 1 <= d <= 31 ->
  0 <= h <= 23 -> 0 <= mi <= 59 -> 0 <= se <= 59 ->
  chronos_from_utc y 13 d h mi se n w
  = chronos_from_utc (y + 1) 1 d h mi se n w /\
  chronos_from_utc y mo (days_in_month y mo + 1) h mi se n w
  = (if mo =? 12 then chronos_from_utc (y + 1) 1 1 h mi se n w
     else chronos_from_utc y (mo + 1) 1 h mi se n w) /\
  chronos_from_utc y mo d h mi (se + 60) n w
  = chronos_from_utc y mo d h (mi + 1) se n w /\
  chronos_from_utc y mo d h (mi + 60) se n w
  = chronos_from_utc y mo d (h + 1) mi se n w /\
  chronos_from_utc y mo d (h + 24) mi se n w
  = chronos_from_utc y mo (d + 1) h mi se n w.
Proof.
  intros Hy Hmo Hd Hh Hmi Hse.
  pose proof (days_in_month_le_31 y mo Hmo) as H31.
  assert (Hdim : 0 <= days_in_month y mo + 1 <= 255).
  { assert (Hc : mo = 1 \/ mo = 2 \/ mo = 3 \/ mo = 4 \/ mo = 5 \/ mo = 6
                 \/ mo = 7 \/ mo = 8 \/ mo = 9 \/ mo = 10 \/ mo = 11
                 \/ mo = 12) by lia.
    assert (Hpos : 0 <= days_in_month y mo).
    { unfold days_in_month.
      destruct (is_leap y);
        repeat (destruct Hc as [-> | Hc]; [vm_compute; discriminate |]);
        subst mo; vm_compute; discriminate. }
    lia. }
  unfold INT_MIN, INT_MAX in Hy. change (2 ^ 31) with 2147483648 in Hy.
  assert (Hcount : forall y' mo' d' h' mi' se',
            -2147483648 + 1900 <= y' <= 2147483647 ->
            0 <= mo' <= 255 -> 0 <= d' <= 255 -> 0 <= h' <= 255 ->
            0 <= mi' <= 255 -> 0 <= se' <= 255 ->
            chronos_from_utc y' mo' d' h' mi' se' n w =
            if (carry_over_seconds y' mo' d' h' mi' se' =? -1)
               || negb (year_fits (carry_over_seconds y' mo' d' h' mi' se'))
            then io_error "timegm failed"
            else io_ok (carry_over_seconds y' mo' d' h' mi' se', n)).
  { intros y' mo' d' h' mi' se' Hy' Hmo' Hd' Hh' Hmi' Hse'.
    apply chronos_from_utc_by_count; assumption. }
  pose proof (carry_over_time y mo d h mi se) as (Hs60 & Hm60 & Hh24).
  split; [| split; [| split; [| split]]].
  - rewrite !Hcount by lia. rewrite carry_over_month. reflexivity.
  - destruct (Z.eqb_spec mo 12) as [-> | Hne].
    + rewrite !Hcount by lia. rewrite carry_over_day_december. reflexivity.
    + rewrite !Hcount by lia. rewrite carry_over_day by lia. reflexivity.
  - rewrite !Hcount by lia. rewrite Hs60. reflexivity.
  - rewrite !Hcount by lia. rewrite Hm60. reflexivity.
  - rewrite !Hcount by lia. rewrite Hh24. reflexivity.
Qed.

Lemma from_utc_carries_over_witness :
  chronos_from_utc 2023 13 31 23 59 59 0 utc_world
  = chronos_from_utc (2023 + 1) 1 31 23 59 59 0 utc_world /\
  chronos_from_utc 2023 12 (days_in_month 2023 12 + 1) 23 59 59 0 utc_world
  = (if 12 =? 12 then chronos_from_utc (2023 + 1) 1 1 23 59 59 0 utc_world
     else chronos_from_utc 2023 (12 + 1) 1 23 59 59 0 utc_world) /\
  chronos_from_utc 2023 12 31 23 59 (59 + 60) 0 utc_world
  = chronos_from_utc 2023 12 31 23 (59 + 1) 59 0 utc_world /\
  chronos_from_utc 2023 12 31 23 (59 + 60) 59 0 utc_world
  = chronos_from_utc 2023 12 31 (23 + 1) 59 59 0 utc_world /\
  chronos_from_utc 2023 12 31 (23 + 24) 59 59 0 utc_world
  = chronos_from_utc 2023 12 (31 + 1) 23 59 59 0 utc_world.
Proof.
  apply (from_utc_carries_over 2023 12 31 23 59 59 0 utc_world).
  - vm_compute. split; [discriminate | reflexivity].
  - lia.
  - lia.
  - lia.
  - lia.
  - lia.
Defined.

(** ** The clock, local time and the offset *)

Section Local.

Variable w : world.

Lemma chronos_to_local_tuple (s n : Z) :
  chronos_to_local s n w =
  match localtime_r (local_zone w) (to_int64 s) with
  | Some b => io_ok (tuple_of_tm b n)
  | None => io_error "localtime_r failed"
  end.
Proof. reflexivity. Qed.

End Local.

(** For an instant within 2^54 seconds of the epoch and zone offsets of at
    most a day, local civil fields read back as UTC give the instant moved
    by the offset in effect, unless that is the second -1. *)
Theorem from_civil_of_to_local_shifts (s n : Z) (w : world) :
  - 18014398509481984 <= s <= 18014398509481984 ->
  - 86400 <= utc_off_std (local_zone w) <= 86400 ->
  - 86400 <= utc_off_dst (local_zone w) <= 86400 ->
  from_civil_of_to_local s n w =
  if s + zone_offset (local_zone w) s =? -1
  then io_error "timegm failed"
  else io_ok (s + zone_offset (local_zone w) s, n).
Proof.
  intros Hs Hstd Hdst.
  assert (Hoff : - 86400 <= zone_offset (local_zone w) s <= 86400).
  { unfold zone_offset. destruct (dst_active (local_zone w) s); assumption. }
  assert (H64 : to_int64 s = s).
  { apply to_int64_id. unfold INT64_MIN, INT64_MAX.
    change (2 ^ 63) with 9223372036854775808. lia. }
  unfold from_civil_of_to_local.
  rewrite chronos_to_local_tuple, H64. unfold localtime_r.
  destruct (secs_to_tm (s + zone_offset (local_zone w) s)
              (if dst_active (local_zone w) s then 1 else 0))
    as [b |] eqn:Hb.
  - cbn [io_bind].
    apply (from_civil_tuple_of_tm w (s + zone_offset (local_zone w) s)
             (if dst_active (local_zone w) s then 1 else 0) n b);
      [| exact Hb].
    unfold INT64_MIN, INT64_MAX. change (2 ^ 63) with 9223372036854775808. lia.
  - exfalso. revert Hb. apply secs_to_tm_in_range. lia.
Qed.

Lemma from_civil_of_to_local_shifts_witness :
  from_civil_of_to_local 1720000000 7 cet_summer_world =
  if 1720000000 + zone_offset (local_zone cet_summer_world) 1720000000 =? -1
  then io_error "timegm failed"
  else io_ok (1720000000 + zone_offset (local_zone cet_summer_world) 1720000000, 7).
Proof.
  apply (from_civil_of_to_local_shifts 1720000000 7 cet_summer_world).
  - lia.
  - cbn. lia.
  - cbn. lia.
Defined.

(** A clock reading within 2^55 seconds of the epoch with a valid
    nanosecond count is returned as it is, and converting it to UTC civil
    fields and back gives it again, unless it is the second -1. *)
Theorem now_roundtrip (w : world) (tv_sec tv_nsec : Z) :
  clock_realtime w = Some (tv_sec, tv_nsec) ->
  0 <= tv_nsec <= 999999999 ->
  - 36028797018963968 <= tv_sec <= 36028797018963968 ->
  chronos_now w = io_ok (tv_sec, tv_nsec) /\
  roundtrip_of_now w =
  if tv_sec =? -1 then io_error "timegm failed" else io_ok (tv_sec, tv_nsec).
Proof.
  intros Hclock Hns Hs.
  assert (Hnow : chronos_now w = io_ok (tv_sec, tv_nsec)).
  { unfold chronos_now. rewrite Hclock.
    unfold lean_io_result_mk_ok, mk_pair, to_uint32, wrap_unsigned.
    change (2 ^ 32) with 4294967296. rewrite Z.mod_small by lia. reflexivity. }
  split; [exact Hnow |].
  unfold roundtrip_of_now. rewrite Hnow. cbn [io_bind fst snd].
  assert (H64 : INT64_MIN <= tv_sec <= INT64_MAX).
  { unfold INT64_MIN, INT64_MAX. change (2 ^ 63) with 9223372036854775808.
    lia. }
  destruct (gmtime_r tv_sec) as [b |] eqn:Hb.
  - apply (from_utc_of_to_utc_some w tv_sec tv_nsec b H64 Hb).
  - exfalso. revert Hb. apply secs_to_tm_in_range. exact Hs.
Qed.

Lemma now_roundtrip_witness :
  chronos_now cet_summer_world = io_ok (1720000000, 0) /\
  roundtrip_of_now cet_summer_world =
  if 1720000000 =? -1 then io_error "timegm failed"
  else io_ok (1720000000, 0).
Proof.
  apply (now_roundtrip cet_summer_world 1720000000 0).
  - reflexivity.
  - lia.
  - lia.
Defined.





